(** * GIGS Marketplace API: the request handlers of [main.py] and the schemas
      of [schemas.py], embedded over a model of the document store.

    Python [str] is modelled by [string], one [ascii] per character (code
    points below 256).  A dictionary is a [gmap string _]: Python compares
    dictionaries without regard to insertion order, as [gmap] does. *)

From Stdlib Require Import Ascii String ZArith.
From stdpp Require Import gmap strings list fin_maps pretty.

Local Open Scope string_scope.

(* ===================================================================== *)
(** * Regular expressions

    Two callers need a regular-expression engine: the [pattern=] constraints
    of [schemas.py], and the [$regex] operator that [list_gigs] hands to the
    store.  The engine below covers the fragment made of literal characters,
    [.], [^], [$], [|], grouping and the quantifiers [*], [+], [?]; a pattern
    that uses anything else is reported as [Outside], a pattern that every
    engine refuses is [Rejected]. *)

Module Regex.

Inductive regex : Type :=
| Eps
| Chr (c : ascii)
| Any
| Bol
| Eol
| Cat (r1 r2 : regex)
| Alt (r1 r2 : regex)
| Star (r : regex).

(** The two engines differ in what [$] accepts and are run with different
    options: the store is asked for option [i]. *)
Record dialect : Type := Dialect {
  caseless : bool;
  dollar_before_final_newline : bool
}.

Definition code (c : ascii) : nat := nat_of_ascii c.

Definition is_upper (c : ascii) : bool := (65 <=? code c)%nat && (code c <=? 90)%nat.
Definition is_lower (c : ascii) : bool := (97 <=? code c)%nat && (code c <=? 122)%nat.
Definition is_digit (c : ascii) : bool := (48 <=? code c)%nat && (code c <=? 57)%nat.
Definition is_alnum (c : ascii) : bool := is_upper c || is_lower c || is_digit c.

Definition lower (c : ascii) : ascii :=
  if is_upper c then ascii_of_nat (code c + 32) else c.

Fixpoint lower_str (s : string) : string :=
  match s with
  | EmptyString => EmptyString
  | String c t => String (lower c) (lower_str t)
  end.

(** Characters with a meaning of their own in a pattern. *)
Definition is_meta (c : ascii) : bool :=
  bool_decide (c ∈ ["\"; "^"; "$"; "."; "["; "]"; "|"; "("; ")"; "?"; "*"; "+"; "{"; "}"]%char).

(** Characters the fragment does not cover at all: NUL and everything
    beyond ASCII, whose case folding is not the one of [lower]. *)
Definition is_foreign (c : ascii) : bool := (code c =? 0)%nat || (128 <=? code c)%nat.

Definition plain_char (c : ascii) : bool := negb (is_meta c) && negb (is_foreign c).

Fixpoint plain (s : string) : bool :=
  match s with
  | EmptyString => true
  | String c t => plain_char c && plain t
  end.

(** ** Parsing a pattern *)

Inductive compiled : Type :=
| Compiled (r : regex)
| Rejected
| Outside.

(** What the quantifier that may come next would apply to. *)
Inductive prev : Type := PNone | PAtom | PQuant | PAssert.

(** One open group: the branches already closed by [|] and the items of the
    branch being read, both with the most recent first. *)
Record frame : Type := Frame {
  alts : list regex;
  items : list regex;
  last : prev
}.

Definition empty_frame : frame := Frame [] [] PNone.

Definition cat_of (rev_items : list regex) : regex :=
  fold_left (fun acc x => Cat x acc) rev_items Eps.

Definition alt_of (rev_alts : list regex) (r : regex) : regex :=
  fold_left (fun acc x => Alt x acc) rev_alts r.

Definition close (f : frame) : regex := alt_of (alts f) (cat_of (items f)).

Definition push (r : regex) (k : prev) (f : frame) : frame :=
  Frame (alts f) (r :: items f) k.

Definition quantify (q : ascii) (r : regex) : regex :=
  if Ascii.eqb q "*" then Star r
  else if Ascii.eqb q "+" then Cat r (Star r)
  else Alt r Eps.

Fixpoint parse (p : string) (cur : frame) (stack : list frame) : compiled :=
  match p with
  | EmptyString =>
      match stack with
      | [] => Compiled (close cur)
      | _ :: _ => Rejected
      end
  | String c p' =>
      if is_foreign c then Outside
      else if Ascii.eqb c "(" then
        match p' with
        | String d _ =>
            if Ascii.eqb d "?" || Ascii.eqb d "*" then Outside
            else parse p' empty_frame (cur :: stack)
        | EmptyString => parse p' empty_frame (cur :: stack)
        end
      else if Ascii.eqb c ")" then
        match stack with
        | [] => Rejected
        | up :: stack' => parse p' (push (close cur) PAtom up) stack'
        end
      else if Ascii.eqb c "|" then
        parse p' (Frame (cat_of (items cur) :: alts cur) [] PNone) stack
      else if Ascii.eqb c "*" || Ascii.eqb c "+" || Ascii.eqb c "?" then
        match last cur, items cur with
        | PAtom, x :: xs => parse p' (Frame (alts cur) (quantify c x :: xs) PQuant) stack
        | PNone, _ => Rejected
        | _, _ => Outside
        end
      else if Ascii.eqb c "\" then
        match p' with
        | EmptyString => Rejected
        | String d p'' =>
            if is_alnum d || is_foreign d then Outside
            else parse p'' (push (Chr d) PAtom cur) stack
        end
      else if Ascii.eqb c "." then parse p' (push Any PAtom cur) stack
      else if Ascii.eqb c "^" then parse p' (push Bol PAssert cur) stack
      else if Ascii.eqb c "$" then parse p' (push Eol PAssert cur) stack
      else if is_meta c then Outside
      else parse p' (push (Chr c) PAtom cur) stack
  end.

Definition compile (p : string) : compiled := parse p empty_frame [].

(** ** Matching *)

Definition chr_eq (d : dialect) (a c : ascii) : bool :=
  if caseless d then Ascii.eqb (lower a) (lower c) else Ascii.eqb a c.

Definition newline : ascii := ascii_of_nat 10.

Definition at_end (d : dialect) (s : string) : bool :=
  match s with
  | EmptyString => true
  | String c EmptyString => dollar_before_final_newline d && Ascii.eqb c newline
  | _ => false
  end.

(** [m d r bol s k]: some way of matching [r] at the front of [s] leaves a
    rest that [k] accepts; [bol] tells whether [s] is the whole subject.  An
    iteration of [Star] that consumes nothing is not repeated. *)
Fixpoint m (d : dialect) (r : regex) (bol : bool) (s : string)
    (k : bool -> string -> bool) {struct r} : bool :=
  match r with
  | Eps => k bol s
  | Chr c =>
      match s with
      | String a t => chr_eq d a c && k false t
      | EmptyString => false
      end
  | Any =>
      match s with
      | String a t => negb (Ascii.eqb a newline) && k false t
      | EmptyString => false
      end
  | Bol => bol && k bol s
  | Eol => at_end d s && k bol s
  | Cat r1 r2 => m d r1 bol s (fun bol' s' => m d r2 bol' s' k)
  | Alt r1 r2 => m d r1 bol s k || m d r2 bol s k
  | Star r1 =>
      (fix loop (fuel : nat) (bol : bool) (s : string) {struct fuel} : bool :=
         k bol s ||
         match fuel with
         | O => false
         | S fuel' =>
             m d r1 bol s (fun bol' s' =>
               (String.length s' <? String.length s)%nat && loop fuel' bol' s')
         end) (String.length s) bol s
  end.

Fixpoint search_from (d : dialect) (r : regex) (bol : bool) (s : string) : bool :=
  m d r bol s (fun _ _ => true) ||
  match s with
  | EmptyString => false
  | String _ t => search_from d r false t
  end.

(** The pattern is found somewhere in the subject. *)
Definition search (d : dialect) (r : regex) (s : string) : bool :=
  search_from d r true s.

(** The engine behind [Field(pattern=...)] and the one behind [$regex] with
    [$options: "i"]. *)
Definition schema_dialect : dialect := Dialect false false.
Definition store_dialect_i : dialect := Dialect true true.

(** ** Words, for stating what a pattern made of plain characters finds *)

Fixpoint literal (w : string) : regex :=
  match w with
  | EmptyString => Eps
  | String c t => Cat (Chr c) (literal t)
  end.

(** The rest of [s] once [w] has been read off its front. *)
Fixpoint strip (d : dialect) (w s : string) : option string :=
  match w, s with
  | EmptyString, _ => Some s
  | String c w', String a t => if chr_eq d a c then strip d w' t else None
  | String _ _, EmptyString => None
  end.

Fixpoint occurs (d : dialect) (w s : string) : bool :=
  bool_decide (is_Some (strip d w s)) ||
  match s with
  | EmptyString => false
  | String _ t => occurs d w t
  end.

(** [w] is all there is in [s], up to what [$] lets pass. *)
Definition whole (d : dialect) (w s : string) : bool :=
  match strip d w s with
  | Some rest => at_end d rest
  | None => false
  end.

(** [q] is a substring of [s] once the case of ASCII letters is set aside. *)
Definition substring_ci (q s : string) : Prop :=
  exists a b, lower_str s = a ++ lower_str q ++ b.

End Regex.


(* ===================================================================== *)
(** * Values, documents and the store *)

(** The libraries the program is built on are taken as they come.  First the
    types they bring: store identifiers ([bson.ObjectId]), time stamps,
    floating-point numbers and the numbers of a request body. *)
Class Carriers : Type := {
  oid : Type;
  oid_eq_dec :: EqDecision oid;
  datetime : Type;
  float : Type;
  number : Type
}.

Section Values.
Context `{Carriers}.

Inductive value : Type :=
| VNone
| VBool (b : bool)
| VStr (s : string)
| VFloat (x : float)
| VList (l : list string)
| VObjectId (o : oid)
| VDatetime (t : datetime).

(** A request body as FastAPI hands it to the validator. *)
#[local] Unset Elimination Schemes.
Inductive json : Type :=
| JNull
| JBool (b : bool)
| JNum (n : number)
| JStr (s : string)
| JArr (l : list json)
| JObj (o : gmap string json).
#[local] Set Elimination Schemes.

End Values.

(** A Python [dict] with string keys: a stored document, a response body. *)
Abbreviation doc := (gmap string value).

(** Then their functions: [ObjectId(s)], with [None] for [InvalidId];
    [str(v)]; [t.isoformat()]; the identifiers the driver generates, in the
    order it issues them; Pydantic's conversions to [float] and to [bool],
    the comparison behind [ge=0], and the check behind [EmailStr], which
    gives back the address it accepted. *)
Class Libraries `{Carriers} : Type := {
  ObjectId : string -> option oid;
  str : value -> string;
  isoformat : datetime -> string;
  generate : nat -> oid;
  as_float : json -> option float;
  as_bool : json -> option bool;
  ge_zero : float -> bool;
  validate_email : string -> option string
}.

(** ** Filters, as the handlers build them *)

Inductive matcher : Type :=
| Equals (s : string)
| Matches (pattern options : string).

Inductive clause : Type :=
| Where (field : string) (c : matcher)
| AnyOf (alternatives : list (string * matcher)).

(** The entries of the [filt] dictionary; all of them have to hold. *)
Definition filter : Type := list clause.

(** ** Outcomes of a request *)

Inductive exn : Type :=
| HTTPException (status_code : Z) (detail : string)
| RequestValidationError
| KeyError (key : string)
| InvalidId
| OperationFailure.

(** [Unmodelled] marks a request whose answer depends on a pattern outside
    the fragment of [Regex]. *)
Inductive outcome (A : Type) : Type :=
| Return (a : A)
| Raise (e : exn)
| Unmodelled.
Arguments Return {A} a.
Arguments Raise {A} e.
Arguments Unmodelled {A}.

Definition and_then {A B} (o : outcome A) (k : A -> outcome B) : outcome B :=
  match o with
  | Return a => k a
  | Raise e => Raise e
  | Unmodelled => Unmodelled
  end.

(** The status line of the answer. *)
Definition status_code_of {A} (o : outcome A) : option Z :=
  match o with
  | Return _ => Some 200%Z
  | Raise (HTTPException c _) => Some c
  | Raise RequestValidationError => Some 422%Z
  | Raise _ => Some 500%Z
  | Unmodelled => None
  end.

Section Marketplace.
Context `{Libraries}.

(** ** The store and the operations run against it *)

Inductive op : Type :=
| FindOne (collection : string) (id : oid)
| Find (collection : string) (filt : filter) (limit : nat)
| InsertOne (collection : string) (d : doc).

Definition is_write (o : op) : bool :=
  match o with InsertOne _ _ => true | _ => false end.

(** [db], the handle on the store, with the count of identifiers issued so
    far and the operations run so far.  Every collection keeps its documents
    in insertion order, each under the identifier the store gave it. *)
Record world : Type := World {
  db : gmap string (list (oid * doc));
  issued : nat;
  log : list op
}.

Definition M (A : Type) : Type := world -> outcome A * world.

Definition ret {A} (a : A) : M A := fun w => (Return a, w).
Definition raise {A} (e : exn) : M A := fun w => (Raise e, w).
Definition bind {A B} (c : M A) (k : A -> M B) : M B :=
  fun w =>
    match c w with
    | (Return a, w') => k a w'
    | (Raise e, w') => (Raise e, w')
    | (Unmodelled, w') => (Unmodelled, w')
    end.
Definition lift {A} (o : outcome A) : M A := fun w => (o, w).

Notation "'let!' x ':=' c 'in' k" := (bind c (fun x => k))
  (at level 10, x name, c at level 100, k at level 200, only parsing).

Fixpoint traverse {A B} (f : A -> M B) (l : list A) : M (list B) :=
  match l with
  | [] => ret []
  | a :: l' => let! b := f a in let! bs := traverse f l' in ret (b :: bs)
  end.

Definition record (o : op) : M unit :=
  fun w => (Return tt, World (db w) (issued w) (log w ++ [o])%list).

(** The document the driver hands out for a stored entry. *)
Definition as_dict (e : oid * doc) : doc := <["_id" := VObjectId e.1]> e.2.

Definition collection (w : world) (name : string) : list (oid * doc) :=
  default [] (db w !! name).

Definition documents (w : world) (name : string) : list doc :=
  as_dict <$> collection w name.

Definition by_id (w : world) (name : string) (o : oid) : option doc :=
  as_dict <$> List.find (fun e => bool_decide (e.1 = o)) (collection w name).

(** [db[name].find_one({"_id": o})] *)
Definition find_one (name : string) (o : oid) : M (option doc) :=
  let! _ := record (FindOne name o) in
  fun w => (Return (by_id w name o), w).

(** [db[name].insert_one(d)] *)
Definition insert_one (name : string) (d : doc) : M oid :=
  let! _ := record (InsertOne name d) in
  fun w =>
    let o := generate (issued w) in
    (Return o,
     World (<[name := (collection w name ++ [(o, d)])%list]> (db w)) (S (issued w)) (log w)).

(** *** Evaluating a filter *)

Inductive test : Type :=
| TEquals (s : string)
| TSearch (d : Regex.dialect) (r : Regex.regex).

Definition plan_matcher (c : matcher) : outcome test :=
  match c with
  | Equals s => Return (TEquals s)
  | Matches p o =>
      if bool_decide (o = "i" \/ o = "") then
        match Regex.compile p with
        | Regex.Compiled r =>
            Return (TSearch (Regex.Dialect (bool_decide (o = "i")) true) r)
        | Regex.Rejected => Raise OperationFailure
        | Regex.Outside => Unmodelled
        end
      else Unmodelled
  end.

(** A test holds of a field that is there and holds a string. *)
Definition holds (t : test) (v : option value) : bool :=
  match v with
  | Some (VStr s) =>
      match t with
      | TEquals s' => bool_decide (s = s')
      | TSearch d r => Regex.search d r s
      end
  | _ => false
  end.

Inductive planned : Type :=
| PWhere (field : string) (t : test)
| PAnyOf (alternatives : list (string * test)).

Fixpoint plan_alternatives (l : list (string * matcher)) : outcome (list (string * test)) :=
  match l with
  | [] => Return []
  | (f, c) :: l' =>
      and_then (plan_matcher c) (fun t =>
      and_then (plan_alternatives l') (fun ts =>
      Return ((f, t) :: ts)))
  end.

Definition plan_clause (c : clause) : outcome planned :=
  match c with
  | Where f c => and_then (plan_matcher c) (fun t => Return (PWhere f t))
  | AnyOf l => and_then (plan_alternatives l) (fun ts => Return (PAnyOf ts))
  end.

(** The store reads the whole filter before it looks at any document: a
    pattern it cannot compile fails the query. *)
Fixpoint plan (f : filter) : outcome (list planned) :=
  match f with
  | [] => Return []
  | c :: f' =>
      and_then (plan_clause c) (fun p =>
      and_then (plan f') (fun ps =>
      Return (p :: ps)))
  end.

Definition satisfies (p : planned) (d : doc) : bool :=
  match p with
  | PWhere f t => holds t (d !! f)
  | PAnyOf l => existsb (fun ft => holds ft.2 (d !! ft.1)) l
  end.

Definition selected (ps : list planned) (d : doc) : bool :=
  forallb (fun p => satisfies p d) ps.

(** [list(db[name].find(filt).limit(limit))] *)
Definition find (name : string) (filt : filter) (limit : nat) : M (list doc) :=
  let! _ := record (Find name filt limit) in
  let! ps := lift (plan filt) in
  fun w =>
    (Return (take limit (List.filter (selected ps) (documents w name))), w).

(* ===================================================================== *)
(** * schemas.py *)

Record User : Type := {
  name : string;
  email : string;
  role : string;
  bio : option string;
  skills : option (list string);
  avatar_url : option string;
  is_active : bool
}.

(** [creator_name] is declared [Optional[str]]; an assignment is not
    validated, so the field holds whatever [create_gig] puts there. *)
Record Gig : Type := {
  title : string;
  description : string;
  category : string;
  price : float;
  creator_id : string;
  creator_name : value
}.

Record Proposal : Type := {
  gig_id : string;
  client_id : string;
  message : string;
  offered_price : option float;
  status : string
}.

(** [BaseModel]: what the store accessors need of a model is the dictionary
    of its fields. *)
Class BaseModel (A : Type) : Type := { model_dump : A -> doc }.

Definition of_option {A} (f : A -> value) (o : option A) : value :=
  match o with Some a => f a | None => VNone end.

#[export] Instance User_model : BaseModel User := {
  model_dump u :=
    <["name" := VStr (name u)]> (
    <["email" := VStr (email u)]> (
    <["role" := VStr (role u)]> (
    <["bio" := of_option VStr (bio u)]> (
    <["skills" := of_option VList (skills u)]> (
    <["avatar_url" := of_option VStr (avatar_url u)]> (
    <["is_active" := VBool (is_active u)]> ∅))))))
}.

#[export] Instance Gig_model : BaseModel Gig := {
  model_dump g :=
    <["title" := VStr (title g)]> (
    <["description" := VStr (description g)]> (
    <["category" := VStr (category g)]> (
    <["price" := VFloat (price g)]> (
    <["creator_id" := VStr (creator_id g)]> (
    <["creator_name" := creator_name g]> ∅)))))
}.

#[export] Instance Proposal_model : BaseModel Proposal := {
  model_dump p :=
    <["gig_id" := VStr (gig_id p)]> (
    <["client_id" := VStr (client_id p)]> (
    <["message" := VStr (message p)]> (
    <["offered_price" := of_option VFloat (offered_price p)]> (
    <["status" := VStr (status p)]> ∅))))
}.

(** ** Field validators *)

Definition v_str (j : json) : option string :=
  match j with JStr s => Some s | _ => None end.

Definition v_optional {A} (v : json -> option A) (j : json) : option (option A) :=
  match j with JNull => Some None | _ => Some <$> v j end.

Definition v_list_str (j : json) : option (list string) :=
  match j with JArr l => mapM v_str l | _ => None end.

(** [Field(pattern=p)]: the pattern is searched for in the string. *)
Definition matches_pattern (p s : string) : bool :=
  match Regex.compile p with
  | Regex.Compiled r => Regex.search Regex.schema_dialect r s
  | _ => false
  end.

Definition v_pattern (p : string) (j : json) : option string :=
  s ← v_str j; if matches_pattern p s then Some s else None.

Definition v_email (j : json) : option string := v_str j ≫= validate_email.

Definition v_float_ge0 (j : json) : option float :=
  x ← as_float j; if ge_zero x then Some x else None.

(** [Field(...)]: the field has to be there. *)
Definition required {A} (v : json -> option A) (o : gmap string json) (k : string) : option A :=
  o !! k ≫= v.

(** [Field(d)], [Field(default_factory=...)]: [d] stands in for a field that
    is not there. *)
Definition defaulted {A} (v : json -> option A) (d : A) (o : gmap string json) (k : string) : option A :=
  match o !! k with Some j => v j | None => Some d end.

Definition validate_User (body : json) : option User :=
  match body with
  | JObj o =>
      name ← required v_str o "name";
      email ← required v_email o "email";
      role ← required (v_pattern "^(creator|client)$") o "role";
      bio ← defaulted (v_optional v_str) None o "bio";
      skills ← defaulted (v_optional v_list_str) (Some []) o "skills";
      avatar_url ← defaulted (v_optional v_str) None o "avatar_url";
      is_active ← defaulted as_bool true o "is_active";
      Some (Build_User name email role bio skills avatar_url is_active)
  | _ => None
  end.

Definition validate_Gig (body : json) : option Gig :=
  match body with
  | JObj o =>
      title ← required v_str o "title";
      description ← required v_str o "description";
      category ← required v_str o "category";
      price ← required v_float_ge0 o "price";
      creator_id ← required v_str o "creator_id";
      creator_name ← defaulted (v_optional v_str) None o "creator_name";
      Some (Build_Gig title description category price creator_id (of_option VStr creator_name))
  | _ => None
  end.

Definition validate_Proposal (body : json) : option Proposal :=
  match body with
  | JObj o =>
      gig_id ← required v_str o "gig_id";
      client_id ← required v_str o "client_id";
      message ← required v_str o "message";
      offered_price ← defaulted (v_optional v_float_ge0) None o "offered_price";
      status ← defaulted (v_pattern "^(pending|accepted|rejected)$") "pending" o "status";
      Some (Build_Proposal gig_id client_id message offered_price status)
  | _ => None
  end.

(* ===================================================================== *)
(** * The store accessors imported from [database] *)

(** Modelled from the spec: [create_document] of the [database] module, which
    is not among the sources.  It inserts the record and returns the newly
    generated identifier as a string. *)
Definition create_document {A} `{BaseModel A} (collection_name : string) (data : A) : M string :=
  let! o := insert_one collection_name (model_dump data) in
  ret (str (VObjectId o)).

(** Modelled from the spec: [get_documents] of the [database] module, which
    is not among the sources.  It is a filtered scan capped at [limit], in
    the order of the store. *)
Definition get_documents (collection_name : string) (filt : filter) (limit : nat) : M (list doc) :=
  find collection_name filt limit.

(* ===================================================================== *)
(** * main.py *)

(** [not doc], for what may be [None] or a dictionary. *)
Definition falsy (d : option doc) : bool :=
  match d with
  | None => true
  | Some d => bool_decide (d = ∅)
  end.

(** The truth value of an [Optional[str]] query parameter. *)
Definition truthy (s : option string) : bool :=
  match s with
  | None => false
  | Some s => negb (bool_decide (s = ""))
  end.

Definition iso (v : value) : value :=
  match v with
  | VDatetime t => VStr (isoformat t)
  | _ => v
  end.

Definition serialize_doc (d : option doc) : outcome (option doc) :=
  if falsy d then Return d
  else
    match d with
    | Some d =>
        match d !! "_id" with
        | Some i => Return (Some (iso <$> <["id" := VStr (str i)]> (delete "_id" d)))
        | None => Raise (KeyError "_id")
        end
    | None => Return None
    end.

(** [ObjectId.is_valid(s)] and [ObjectId(s)]. *)
Definition is_valid (s : string) : bool :=
  negb (bool_decide (s = "")) && bool_decide (is_Some (ObjectId s)).

Definition make_ObjectId (s : string) : M oid :=
  match ObjectId s with
  | Some o => ret o
  | None => raise InvalidId
  end.

Definition get (d : doc) (k : string) : value := default VNone (d !! k).

Definition id_response (i : string) : doc := {[ "id" := VStr i ]}.

Definition create_user (user : User) : M doc :=
  let! user_id := create_document "user" user in
  ret (id_response user_id).

Definition list_users (role : option string) : M (list (option doc)) :=
  let filt := if truthy role then [Where "role" (Equals (default "" role))] else [] in
  let! docs := get_documents "user" filt 100 in
  traverse (fun d => lift (serialize_doc (Some d))) docs.

Definition with_creator_name (gig : Gig) (v : value) : Gig :=
  Build_Gig (title gig) (description gig) (category gig) (price gig) (creator_id gig) v.

Definition create_gig (gig : Gig) : M doc :=
  let! creator :=
    (if is_valid (creator_id gig)
     then let! o := make_ObjectId (creator_id gig) in find_one "user" o
     else ret None) in
  if falsy creator then raise (HTTPException 404 "Creator not found")
  else
    let gig := with_creator_name gig (get (default ∅ creator) "name") in
    let! gig_id := create_document "gig" gig in
    ret (id_response gig_id).

Definition search_clause (q : string) : clause :=
  AnyOf [("title", Matches q "i");
         ("description", Matches q "i");
         ("creator_name", Matches q "i")].

Definition list_gigs (category q : option string) : M (list (option doc)) :=
  let filt := [] in
  let filt := if truthy category then (filt ++ [Where "category" (Equals (default "" category))])%list else filt in
  let filt := if truthy q then (filt ++ [search_clause (default "" q)])%list else filt in
  let! docs := get_documents "gig" filt 100 in
  traverse (fun d => lift (serialize_doc (Some d))) docs.

Definition create_proposal (p : Proposal) : M doc :=
  let! gig :=
    (if is_valid (gig_id p)
     then let! o := make_ObjectId (gig_id p) in find_one "gig" o
     else ret None) in
  if falsy gig then raise (HTTPException 404 "Gig not found")
  else
    let! client :=
      (if is_valid (client_id p)
       then let! o := make_ObjectId (client_id p) in find_one "user" o
       else ret None) in
    if falsy client then raise (HTTPException 404 "Client not found")
    else
      let! prop_id := create_document "proposal" p in
      ret (id_response prop_id).

Definition list_proposals (gig_id client_id : option string) : M (list (option doc)) :=
  let filt := [] in
  let filt :=
    if truthy gig_id && is_valid (default "" gig_id)
    then (filt ++ [Where "gig_id" (Equals (default "" gig_id))])%list else filt in
  let filt :=
    if truthy client_id && is_valid (default "" client_id)
    then (filt ++ [Where "client_id" (Equals (default "" client_id))])%list else filt in
  let! docs := get_documents "proposal" filt 100 in
  traverse (fun d => lift (serialize_doc (Some d))) docs.

(** ** The diagnostic route *)

(** [db], as [test_database] meets it: what its [list_collection_names()]
    does, the names it returns or the text of the exception it raises. *)
Inductive handle : Type :=
| Names (names : list string)
| Fails (message : string).

(** [os.getenv(name)] taken as a condition: the variable is set, and not to
    the empty string. *)
Definition set_or_not (environ : gmap string string) (name : string) : value :=
  VStr (if truthy (environ !! name) then "✅ Set" else "❌ Not Set").

(** [str(e)[:80]] *)
Definition first_80 (message : string) : string := String.substring 0 80 message.

(** The outer [except] is left out: nothing in the block it guards can raise
    once the inner one has caught what [list_collection_names] raises. *)
Definition test_database (environ : gmap string string) (db : option handle) : doc :=
  let resp : doc :=
    <["backend" := VStr "✅ Running"]> (
    <["database" := VStr "❌ Not Available"]> (
    <["database_url" := set_or_not environ "DATABASE_URL"]> (
    <["database_name" := set_or_not environ "DATABASE_NAME"]> (
    <["collections" := VList []]> ∅)))) in
  match db with
  | Some h =>
      let resp := <["database" := VStr "✅ Connected"]> resp in
      match h with
      | Names names =>
          let resp := <["collections" := VList names]> resp in
          <["database" := VStr "✅ Connected & Working"]> resp
      | Fails message =>
          <["database" := VStr ("⚠️ Connected but Error: " ++ first_80 message)]> resp
      end
  | None => <["database" := VStr "❌ db is None"]> resp
  end.

(** ** The routes: the body of a POST is validated before the handler runs *)

Definition validated {A B} (validate : json -> option A) (handler : A -> M B) (body : json) : M B :=
  match validate body with
  | Some a => handler a
  | None => raise RequestValidationError
  end.

Inductive request : Type :=
| POST_users (body : json)
| GET_users (role : option string)
| POST_gigs (body : json)
| GET_gigs (category q : option string)
| POST_proposals (body : json)
| GET_proposals (gig_id client_id : option string).

Inductive response : Type :=
| Created (body : doc)
| Listing (body : list (option doc)).

Definition route (r : request) : M response :=
  match r with
  | POST_users body => let! d := validated validate_User create_user body in ret (Created d)
  | GET_users role => let! l := list_users role in ret (Listing l)
  | POST_gigs body => let! d := validated validate_Gig create_gig body in ret (Created d)
  | GET_gigs category q => let! l := list_gigs category q in ret (Listing l)
  | POST_proposals body => let! d := validated validate_Proposal create_proposal body in ret (Created d)
  | GET_proposals g c => let! l := list_proposals g c in ret (Listing l)
  end.

(* ===================================================================== *)
(** * Vocabulary of the statements *)

(** The world once the operations [l] have been run and nothing written. *)
Definition logged (w : world) (l : list op) : world :=
  World (db w) (issued w) (log w ++ l)%list.

(** The world once [d] has been inserted into [name], after the reads [l]. *)
Definition inserted (w : world) (l : list op) (name : string) (d : doc) : world :=
  World (<[name := (collection w name ++ [(generate (issued w), d)])%list]> (db w))
        (S (issued w)) (log w ++ l ++ [InsertOne name d])%list.

(** [s] names no document of [name]: it is no identifier, or the identifier
    of nothing there. *)
Definition unresolved (w : world) (name s : string) : Prop :=
  is_valid s = false \/ exists o, ObjectId s = Some o /\ by_id w name o = None.

(** The operations [l] are lookups in [name], and nothing else. *)
Definition only_reads_of (name : string) (l : list op) : Prop :=
  Forall (fun x => exists o, x = FindOne name o) l.

(** [s] names the document [u] of [name], under the identifier [o]. *)
Definition resolves (w : world) (name s : string) (o : oid) (u : doc) : Prop :=
  is_valid s = true /\ ObjectId s = Some o /\ by_id w name o = Some u.

(** A stored entry as a listing shows it. *)
Definition public (e : oid * doc) : doc :=
  iso <$> <["id" := VStr (str (VObjectId e.1))]> (delete "_id" e.2).

(** The first hundred entries of [name] whose document [keep] retains, as
    they are shown. *)
Definition listing (w : world) (name : string) (keep : doc -> bool) : list (option doc) :=
  (fun e => Some (public e)) <$>
  take 100 (List.filter (fun e => keep (as_dict e)) (collection w name)).

Definition is_string (s : string) (v : option value) : bool :=
  match v with
  | Some (VStr t) => bool_decide (t = s)
  | _ => false
  end.

(** The field holds exactly the identifier asked for, when one was asked for
    that is valid. *)
Definition agrees (field : string) (wanted : option string) (d : doc) : bool :=
  match wanted with
  | Some s => if is_valid s then is_string s (d !! field) else true
  | None => true
  end.

(** The field holds a string of which [q] is a substring, case set aside. *)
Definition field_contains (q : string) (v : option value) : Prop :=
  exists s, v = Some (VStr s) /\ Regex.substring_ci q s.

(** What a gig listing for [category] and [q] is to retain. *)
Definition gig_wanted (category q : option string) (d : doc) : Prop :=
  (truthy category = true -> d !! "category" = Some (VStr (default "" category))) /\
  (truthy q = true ->
     field_contains (default "" q) (d !! "title") \/
     field_contains (default "" q) (d !! "description") \/
     field_contains (default "" q) (d !! "creator_name")).

Definition status_values : list string := ["pending"; "accepted"; "rejected"].

(** Every stored proposal has one of the three statuses. *)
Definition proposals_ok (w : world) : Prop :=
  forall e, e ∈ collection w "proposal" ->
    exists s, e.2 !! "status" = Some (VStr s) /\ s ∈ status_values.

(** What one request may do to the store: read, or insert one document,
    which has one of the three statuses when it is a proposal. *)
Definition step_ok (w w' : world) : Prop :=
  (exists l, w' = logged w l) \/
  (exists l name d, w' = inserted w l name d /\
     (name = "proposal" -> exists s, d !! "status" = Some (VStr s) /\ s ∈ status_values)).

(** A record in serialized form: no [_id] field. *)
Definition no_native_id (d : option doc) : Prop :=
  forall d', d = Some d' -> d' !! "_id" = None.

(** The optional fields of a user are of the declared types when present. *)
Definition user_optionals_ok (o : gmap string json) : Prop :=
  is_Some (defaulted (v_optional v_str) None o "bio") /\
  is_Some (defaulted (v_optional v_list_str) (Some []) o "skills") /\
  is_Some (defaulted (v_optional v_str) None o "avatar_url") /\
  is_Some (defaulted as_bool true o "is_active").

(** What a request has done to the store. *)
Inductive effect (w : world) : world -> Prop :=
| Read l : effect w (logged w l)
| NewUser (u : User) : effect w (inserted w [] "user" (model_dump u))
| NewGig (gig : Gig) o u l :
    resolves w "user" (creator_id gig) o u ->
    effect w (inserted w l "gig" (model_dump (with_creator_name gig (get u "name"))))
| NewProposal (p : Proposal) o g o' c l :
    resolves w "gig" (gig_id p) o g ->
    resolves w "user" (client_id p) o' c ->
    status p ∈ status_values ->
    effect w (inserted w l "proposal" (model_dump p)).

(** Every stored gig names, by its [creator_id], a stored user, and carries
    what that user has under [name]. *)
Definition gigs_refer (w : world) : Prop :=
  forall e, e ∈ collection w "gig" ->
    exists s o u,
      e.2 !! "creator_id" = Some (VStr s) /\
      resolves w "user" s o u /\
      e.2 !! "creator_name" = Some (get u "name").

(** Every stored proposal names a stored gig and a stored user. *)
Definition proposals_refer (w : world) : Prop :=
  forall e, e ∈ collection w "proposal" ->
    exists g c o dg o' dc,
      e.2 !! "gig_id" = Some (VStr g) /\
      e.2 !! "client_id" = Some (VStr c) /\
      resolves w "gig" g o dg /\
      resolves w "user" c o' dc.

(** A record that can go out as it is: the identifier under [id] as a
    string, no [_id], no time stamp left. *)
Definition transport_safe (d : doc) : Prop :=
  d !! "_id" = None /\
  (exists s, d !! "id" = Some (VStr s)) /\
  (forall k t, d !! k <> Some (VDatetime t)).

Definition is_listing (r : request) : bool :=
  match r with
  | GET_users _ | GET_gigs _ _ | GET_proposals _ _ => true
  | _ => false
  end.

End Marketplace.

#[global] Hint Mode BaseModel - ! : typeclass_instances.

(* ===================================================================== *)
(** * A sample instance of the libraries, to run the handlers on

    Identifiers are 96-bit numbers written with 24 hexadecimal digits, a time
    stamp is given by its ISO 8601 text, and the numbers are whole. *)

Module Sample.

Definition hex_value (c : ascii) : option N :=
  let n := N_of_ascii c in
  if (48 <=? n)%N && (n <=? 57)%N then Some (n - 48)%N
  else if (97 <=? n)%N && (n <=? 102)%N then Some (n - 87)%N
  else if (65 <=? n)%N && (n <=? 70)%N then Some (n - 55)%N
  else None.

Fixpoint read_hex (s : string) (acc : N) : option N :=
  match s with
  | EmptyString => Some acc
  | String c t =>
      match hex_value c with
      | Some v => read_hex t (16 * acc + v)%N
      | None => None
      end
  end.

Definition hex_digit (n : N) : ascii :=
  ascii_of_N (if (n <? 10)%N then 48 + n else 87 + n)%N.

Fixpoint write_hex (digits : nat) (n : N) (acc : string) : string :=
  match digits with
  | O => acc
  | S k => write_hex k (n / 16)%N (String (hex_digit (n mod 16)%N) acc)
  end.

#[local] Instance carriers : Carriers := {
  oid := N;
  datetime := string;
  float := Z;
  number := Z
}.

Definition quoted (s : string) : string := "'" ++ s ++ "'".

Definition str_value (v : value) : string :=
  match v with
  | VNone => "None"
  | VBool true => "True"
  | VBool false => "False"
  | VStr s => s
  | VFloat x => pretty (x : Z) ++ ".0"
  | VList l => "[" ++ String.concat ", " (quoted <$> l) ++ "]"
  | VObjectId o => write_hex 24 o ""
  | VDatetime t => t
  end.

(** One [@], something before it, and a dot somewhere after it. *)
Fixpoint after_at (s : string) : option string :=
  match s with
  | EmptyString => None
  | String c t => if Ascii.eqb c "@" then Some t else after_at t
  end.

Fixpoint has (c : ascii) (s : string) : bool :=
  match s with
  | EmptyString => false
  | String a t => Ascii.eqb a c || has c t
  end.

Definition address (s : string) : option string :=
  match s, after_at s with
  | String c _, Some domain =>
      if negb (Ascii.eqb c "@") && has "." domain && negb (has "@" domain)
      then Some s else None
  | _, _ => None
  end.

#[local] Instance libraries : Libraries := {
  ObjectId s := if (String.length s =? 24)%nat then read_hex s 0 else None;
  str := str_value;
  isoformat t := t;
  generate n := N.of_nat (S n);
  as_float j := match j with JNum n => Some n | _ => None end;
  as_bool j := match j with JBool b => Some b | _ => None end;
  ge_zero x := (0 <=? x)%Z;
  validate_email := address
}.

(** A store with one user and one gig of hers. *)
Definition ann : oid * doc :=
  (1%N, model_dump (Build_User "Ann" "ann@x.com" "creator" None (Some []) None true)).

Definition logo : oid * doc :=
  (2%N, model_dump (Build_Gig "Logo" "design" "design" 50%Z
                      "000000000000000000000001" (VStr "Ann"))).

Definition store : world :=
  World (<["user" := [ann]]> (<["gig" := [logo]]> ∅)) 2 [].

Definition empty_store : world := World ∅ 0 [].

(** A record as a listing shows it, and two request bodies. *)
Definition shown : doc := <["id" := VStr "000000000000000000000001"]> (<["name" := VStr "Ann"]> ∅).

Definition nameless : gmap string json :=
  <["name" := JStr ""]> (<["email" := JStr "ann@x.com"]> (<["role" := JStr "creator"]> ∅)).

Definition hasty : gmap string json :=
  <["gig_id" := JStr "000000000000000000000002"]> (
  <["client_id" := JStr "000000000000000000000001"]> (
  <["message" := JStr "hi"]> (
  <["status" := JStr "done"]> ∅))).


Definition anonymous : world :=
  World (<["user" := [(1%N, <["email" := VStr "nobody@x.com"]> ∅)]]> ∅) 1 [].

Definition stamped : doc :=
  <["_id" := VObjectId 7%N]> (
  <["id" := VStr "mine"]> (
  <["created_at" := VDatetime "2024-05-01T10:00:00"]> (
  <["name" := VStr "Ann"]> ∅))).

Definition poster : gmap string json :=
  <["title" := JStr "Poster"]> (
  <["description" := JStr "print"]> (
  <["category" := JStr "design"]> (
  <["price" := JNum 20%Z]> (
  <["creator_id" := JStr "000000000000000000000001"]> ∅)))).

Definition bob : User := Build_User "Bob" "bob@x.com" "client" None (Some []) None true.

Definition banner : Gig :=
  Build_Gig "Banner" "web" "design" 30%Z "000000000000000000000003" VNone.

Definition offer : Proposal :=
  Build_Proposal "000000000000000000000002" "000000000000000000000001" "hi" None "pending".

End Sample.

(* ===================================================================== *)
(** * Facts about the patterns *)

Section RegexFacts.
Import Regex.

Lemma parse_plain_char c p cur stack :
  plain_char c = true ->
  parse (String c p) cur stack = parse p (push (Chr c) PAtom cur) stack.
Proof.
  intros Hc.
  destruct c as [[] [] [] [] [] [] [] []]; vm_compute in Hc; try discriminate Hc; reflexivity.
Qed.

Lemma parse_plain w : forall l a k,
  plain w = true ->
  parse w (Frame a (rev l) k) [] =
  Compiled (alt_of a (foldr Cat Eps (l ++ map Chr (list_ascii_of_string w)))).
Proof.
  induction w as [|c w IH]; intros l a k Hw.
  - simpl. unfold close, cat_of. simpl. rewrite app_nil_r.
    rewrite <- (fold_left_rev_right Cat (rev l) Eps), rev_involutive. reflexivity.
  - simpl in Hw. apply andb_prop in Hw as [Hc Hw].
    rewrite parse_plain_char by exact Hc. unfold push. simpl alts. simpl items.
    change (Chr c :: rev l) with ([Chr c] ++ rev l)%list.
    replace ([Chr c] ++ rev l)%list with (rev (l ++ [Chr c])) by (rewrite rev_app_distr; reflexivity).
    rewrite IH by exact Hw. rewrite <- app_assoc. reflexivity.
Qed.

Lemma literal_foldr w : foldr Cat Eps (map Chr (list_ascii_of_string w)) = literal w.
Proof. induction w as [|c w IH]; simpl; [reflexivity | now rewrite IH]. Qed.

Lemma compile_plain w : plain w = true -> compile w = Compiled (literal w).
Proof.
  intros Hw. unfold compile, empty_frame.
  change (Frame [] [] PNone) with (Frame [] (rev []) PNone).
  rewrite (parse_plain w [] [] PNone Hw). simpl. now rewrite literal_foldr.
Qed.

Lemma m_literal d w : forall bol s k,
  m d (literal w) bol s k =
  match strip d w s with
  | Some rest => k (bol && bool_decide (w = "")) rest
  | None => false
  end.
Proof.
  induction w as [|c w IH]; intros bol s k.
  - simpl. destruct s; simpl; now rewrite andb_true_r.
  - simpl. destruct s as [|a t]; [reflexivity|].
    destruct (chr_eq d a c); simpl; [|reflexivity].
    rewrite IH. destruct (strip d w t); [|reflexivity].
    simpl. now rewrite andb_false_r.
Qed.

Lemma search_literal d w s bol : search_from d (literal w) bol s = occurs d w s.
Proof.
  revert bol. induction s as [|a t IH]; intros bol; simpl;
    rewrite m_literal.
  - destruct (strip d w ""); reflexivity.
  - rewrite IH. destruct (strip d w (String a t)) eqn:E; reflexivity.
Qed.

Lemma chr_eq_ci a c : chr_eq store_dialect_i a c = true <-> lower a = lower c.
Proof. unfold chr_eq. simpl. apply Ascii.eqb_eq. Qed.

Lemma strip_ci w : forall s,
  is_Some (strip store_dialect_i w s) <-> exists b, lower_str s = lower_str w ++ b.
Proof.
  induction w as [|c w IH]; intros s; simpl.
  - split; [intros _; now exists (lower_str s) | intros _; eauto].
  - destruct s as [|a t]; simpl.
    + split; [intros [? ?]; discriminate | intros [b Hb]; discriminate].
    + destruct (chr_eq store_dialect_i a c) eqn:E.
      * apply chr_eq_ci in E. rewrite IH. split; intros [b Hb]; exists b.
        -- now rewrite E, Hb.
        -- now injection Hb.
      * split; [intros [? ?]; discriminate|].
        intros [b Hb]. injection Hb as Hac _. apply chr_eq_ci in Hac. congruence.
Qed.

Lemma occurs_ci w s : occurs store_dialect_i w s = true <-> substring_ci w s.
Proof.
  unfold substring_ci. induction s as [|x t IH]; simpl.
  - rewrite orb_false_r, bool_decide_eq_true, strip_ci. simpl. split.
    + intros [b Hb]. exists "", b. exact Hb.
    + intros [a [b Hab]]. destruct a; [now exists b | discriminate].
  - rewrite orb_true_iff, bool_decide_eq_true, strip_ci, IH. simpl. split.
    + intros [[b Hb] | [a [b Hab]]].
      * exists "", b. exact Hb.
      * exists (String (lower x) a), b. simpl. now rewrite Hab.
    + intros [a [b Hab]]. destruct a as [|y a]; simpl in Hab.
      * left. now exists b.
      * right. exists a, b. now injection Hab.
Qed.

Lemma strip_exact w : forall s rest,
  strip schema_dialect w s = Some rest <-> s = w ++ rest.
Proof.
  induction w as [|c w IH]; intros s rest; simpl.
  - split; [now intros [= ->] | now intros ->].
  - destruct s as [|a t].
    + split; discriminate.
    + unfold chr_eq. simpl. destruct (Ascii.eqb a c) eqn:E.
      * apply Ascii.eqb_eq in E as ->. rewrite IH. split; [now intros -> | now intros [= ->]].
      * apply Ascii.eqb_neq in E. split; [discriminate | intros [= ? ?]; congruence].
Qed.

Lemma append_empty_r (w : string) : w ++ "" = w.
Proof.
  induction w as [|c w IH]; [reflexivity|].
  change (String c (w ++ "") = String c w). now rewrite IH.
Qed.

Lemma whole_schema w s : whole schema_dialect w s = true <-> s = w.
Proof.
  unfold whole. destruct (strip schema_dialect w s) as [rest|] eqn:E.
  - apply strip_exact in E as ->. destruct rest as [|c rest].
    + rewrite append_empty_r. simpl. tauto.
    + assert (at_end schema_dialect (String c rest) = false) as -> by (destruct rest; reflexivity).
      split; [discriminate|]. intros E. rewrite <- (append_empty_r w) in E at 2.
      apply (inj (String.app w)) in E. discriminate.
  - split; [discriminate|]. intros ->.
    assert (strip schema_dialect w w = Some "") as E' by (apply strip_exact; symmetry; apply append_empty_r).
    congruence.
Qed.

Lemma search_anchored_tail d x s : search_from d (Cat Bol x) false s = false.
Proof. induction s as [|a t IH]; simpl; [reflexivity | exact IH]. Qed.

Lemma search_anchored d x s :
  search d (Cat Bol x) s = m d x true s (fun _ _ => true).
Proof.
  unfold search. destruct s as [|a t]; simpl.
  - now rewrite orb_false_r.
  - now rewrite search_anchored_tail, orb_false_r.
Qed.

Lemma m_whole d w bol s :
  m d (literal w) bol s (fun bol' s' => m d (Cat Eol Eps) bol' s' (fun _ _ => true)) = whole d w s.
Proof.
  rewrite m_literal. unfold whole. destruct (strip d w s); [|reflexivity].
  simpl. now rewrite andb_true_r.
Qed.

Lemma search_one_of_two d a b s :
  search d (Cat Bol (Cat (Alt (literal a) (literal b)) (Cat Eol Eps))) s =
  whole d a s || whole d b s.
Proof. rewrite search_anchored. simpl m at 1. now rewrite !m_whole. Qed.

Lemma search_one_of_three d a b c s :
  search d (Cat Bol (Cat (Alt (literal a) (Alt (literal b) (literal c))) (Cat Eol Eps))) s =
  whole d a s || (whole d b s || whole d c s).
Proof. rewrite search_anchored. simpl m at 1. simpl m at 2. now rewrite !m_whole. Qed.

Lemma role_pattern s :
  matches_pattern "^(creator|client)$" s = true <-> s = "creator" \/ s = "client".
Proof.
  unfold matches_pattern.
  change (compile "^(creator|client)$") with
    (Compiled (Cat Bol (Cat
       (Alt (literal "creator") (literal "client"))
       (Cat Eol Eps)))).
  cbv beta iota. rewrite search_one_of_two, orb_true_iff, !whole_schema. tauto.
Qed.

Lemma status_pattern s :
  matches_pattern "^(pending|accepted|rejected)$" s = true <->
  s = "pending" \/ s = "accepted" \/ s = "rejected".
Proof.
  unfold matches_pattern.
  change (compile "^(pending|accepted|rejected)$") with
    (Compiled (Cat Bol (Cat
       (Alt (literal "pending")
          (Alt (literal "accepted") (literal "rejected")))
       (Cat Eol Eps)))).
  cbv beta iota. rewrite search_one_of_three, !orb_true_iff, !whole_schema. tauto.
Qed.

End RegexFacts.

(* ===================================================================== *)
(** * Facts about the handlers *)

Section Facts.
Context `{Libraries}.

Ltac run :=
  unfold create_document, get_documents, find_one, insert_one, find, make_ObjectId;
  repeat (unfold bind, ret, raise, lift, record; cbv beta iota).

Lemma logged_nil w : logged w [] = w.
Proof. destruct w. unfold logged. simpl. now rewrite app_nil_r. Qed.

Lemma by_id_truthy w name o u : by_id w name o = Some u -> falsy (Some u) = false.
Proof.
  unfold by_id. intros E. destruct (List.find _ _) as [e|]; [|discriminate].
  injection E as <-. simpl. apply bool_decide_eq_false. unfold as_dict.
  apply insert_non_empty.
Qed.

Lemma resolution w name s :
  unresolved w name s \/ exists o u, resolves w name s o u.
Proof.
  unfold unresolved, resolves.
  destruct (is_valid s) eqn:V; [|left; left; reflexivity].
  pose proof V as V'. unfold is_valid in V'. apply andb_prop in V' as [_ S].
  apply bool_decide_eq_true in S as [o Ho].
  destruct (by_id w name o) as [u|] eqn:B.
  - right. now exists o, u.
  - left. right. now exists o.
Qed.

Lemma resolves_not_unresolved w name s o u :
  resolves w name s o u -> unresolved w name s -> False.
Proof.
  intros (V & O & B) [V' | (o' & O' & B')]; congruence.
Qed.

Lemma lookup_unresolved w name s :
  unresolved w name s ->
  exists l,
    (if is_valid s then bind (make_ObjectId s) (fun o => find_one name o) else ret None) w
    = (Return None, logged w l) /\ only_reads_of name l.
Proof.
  intros [V | (o & O & B)].
  - rewrite V. exists []. rewrite logged_nil. split; [reflexivity | constructor].
  - destruct (is_valid s).
    + exists [FindOne name o]. unfold make_ObjectId. rewrite O. run. split.
      * unfold by_id, collection in *. simpl. rewrite B. reflexivity.
      * repeat constructor. now exists o.
    + exists []. rewrite logged_nil. split; [reflexivity | constructor].
Qed.

Lemma lookup_resolves w name s o u :
  resolves w name s o u ->
  (if is_valid s then bind (make_ObjectId s) (fun o => find_one name o) else ret None) w
  = (Return (Some u), logged w [FindOne name o]).
Proof.
  intros (V & O & B). rewrite V.
  unfold make_ObjectId. rewrite O. run.
  unfold by_id, collection in *. simpl. rewrite B. reflexivity.
Qed.

Lemma create_gig_unresolved gig w :
  unresolved w "user" (creator_id gig) ->
  exists l,
    create_gig gig w = (Raise (HTTPException 404 "Creator not found"), logged w l) /\
    only_reads_of "user" l.
Proof.
  intros U. destruct (lookup_unresolved _ _ _ U) as (l & E & R).
  exists l. split; [|exact R].
  unfold create_gig. unfold bind at 1. rewrite E. reflexivity.
Qed.

Lemma create_gig_resolves gig w o u :
  resolves w "user" (creator_id gig) o u ->
  create_gig gig w =
  (Return (id_response (str (VObjectId (generate (issued w))))),
   inserted w [FindOne "user" o] "gig" (model_dump (with_creator_name gig (get u "name")))).
Proof.
  intros R. pose proof R as (_ & _ & B).
  unfold create_gig. unfold bind at 1. rewrite (lookup_resolves _ _ _ _ _ R).
  rewrite (by_id_truthy _ _ _ _ B).
  run. unfold inserted, logged, collection. simpl.
  rewrite <- app_assoc. reflexivity.
Qed.


Lemma create_proposal_gig_unresolved p w :
  unresolved w "gig" (gig_id p) ->
  exists l,
    create_proposal p w = (Raise (HTTPException 404 "Gig not found"), logged w l) /\
    only_reads_of "gig" l.
Proof.
  intros U. destruct (lookup_unresolved _ _ _ U) as (l & E & R).
  exists l. split; [|exact R].
  unfold create_proposal. unfold bind at 1. rewrite E. reflexivity.
Qed.

Lemma logged_logged w l l' : logged (logged w l) l' = logged w (l ++ l').
Proof. unfold logged. simpl. now rewrite app_assoc. Qed.

Lemma by_id_logged w l name o : by_id (logged w l) name o = by_id w name o.
Proof. reflexivity. Qed.

Lemma create_proposal_client_unresolved p w o g :
  resolves w "gig" (gig_id p) o g ->
  unresolved w "user" (client_id p) ->
  exists l,
    create_proposal p w = (Raise (HTTPException 404 "Client not found"), logged w (FindOne "gig" o :: l)) /\
    only_reads_of "user" l.
Proof.
  intros R U. pose proof R as (_ & _ & B).
  assert (unresolved (logged w [FindOne "gig" o]) "user" (client_id p)) as U' by exact U.
  destruct (lookup_unresolved _ _ _ U') as (l & E & Rl).
  exists l. split; [|exact Rl].
  unfold create_proposal. unfold bind at 1. rewrite (lookup_resolves _ _ _ _ _ R).
  rewrite (by_id_truthy _ _ _ _ B). unfold bind at 1. rewrite E.
  simpl. now rewrite logged_logged.
Qed.

Lemma create_proposal_resolves p w o g o' c :
  resolves w "gig" (gig_id p) o g ->
  resolves w "user" (client_id p) o' c ->
  create_proposal p w =
  (Return (id_response (str (VObjectId (generate (issued w))))),
   inserted w [FindOne "gig" o; FindOne "user" o'] "proposal" (model_dump p)).
Proof.
  intros R R'. pose proof R as (_ & _ & B). pose proof R' as (_ & _ & B').
  assert (resolves (logged w [FindOne "gig" o]) "user" (client_id p) o' c) as R'' by exact R'.
  unfold create_proposal. unfold bind at 1. rewrite (lookup_resolves _ _ _ _ _ R).
  rewrite (by_id_truthy _ _ _ _ B). unfold bind at 1.
  rewrite (lookup_resolves _ _ _ _ _ R''). rewrite (by_id_truthy _ _ _ _ B').
  run. unfold inserted, logged, collection. simpl.
  rewrite <- !app_assoc. reflexivity.
Qed.

(** ** Listings *)

Lemma serialize_stored e : serialize_doc (Some (as_dict e)) = Return (Some (public e)).
Proof.
  unfold serialize_doc, public, as_dict. simpl.
  rewrite bool_decide_eq_false_2 by apply insert_non_empty.
  rewrite lookup_insert_eq, delete_insert_eq. reflexivity.
Qed.

Lemma traverse_stored (l : list (oid * doc)) w :
  traverse (fun d => lift (serialize_doc (Some d))) (as_dict <$> l) w =
  (Return ((fun e => Some (public e)) <$> l), w).
Proof.
  induction l as [|e l IH]; [reflexivity|].
  rewrite fmap_cons. simpl traverse. unfold bind at 1. unfold lift at 1.
  rewrite serialize_stored. unfold bind at 1. rewrite IH. reflexivity.
Qed.

Lemma filter_fmap {A B} (f : A -> B) (P : B -> bool) (l : list A) :
  List.filter P (f <$> l) = f <$> List.filter (fun a => P (f a)) l.
Proof.
  induction l as [|a l IH]; [reflexivity|].
  rewrite fmap_cons. simpl. destruct (P (f a)); [rewrite fmap_cons|]; now rewrite IH.
Qed.

Lemma listing_run name filt ps w :
  plan filt = Return ps ->
  bind (get_documents name filt 100)
       (fun docs => traverse (fun d => lift (serialize_doc (Some d))) docs) w =
  (Return (listing w name (selected ps)), logged w [Find name filt 100]).
Proof.
  intros P. run. rewrite P. cbv beta iota.
  unfold documents, collection. simpl.
  rewrite filter_fmap, <- fmap_take, traverse_stored. reflexivity.
Qed.

Lemma listing_ext w name keep keep' :
  (forall d, keep d = keep' d) -> listing w name keep = listing w name keep'.
Proof.
  intros E. unfold listing. f_equal. f_equal. apply List.filter_ext. intros e. apply E.
Qed.


Lemma agrees_spec field g d :
  agrees field g d =
  if truthy g && is_valid (default "" g) then is_string (default "" g) (d !! field) else true.
Proof.
  destruct g as [s|]; [|reflexivity]. simpl.
  destruct (bool_decide (s = "")) eqn:E; simpl; [|reflexivity].
  apply bool_decide_eq_true in E as ->. reflexivity.
Qed.

Lemma holds_equals s v : holds (TEquals s) v = is_string s v.
Proof. destruct v as [[]|]; reflexivity. Qed.

(** C7: a proposal listing always answers with status 200 and the first
    hundred proposals, in store order, whose [gig_id] and [client_id] are
    exactly the identifiers asked for; a parameter that is not provided, or
    whose value is not a valid store identifier, restricts nothing, so an
    invalid identifier gives the same answer as no identifier at all. *)
Theorem list_proposals_filters g c w :
  (exists filt,
     list_proposals g c w =
     (Return (listing w "proposal" (fun d => agrees "gig_id" g d && agrees "client_id" c d)),
      logged w [Find "proposal" filt 100])) /\
  status_code_of (list_proposals g c w).1 = Some 200%Z /\
  (forall s, is_valid s = false ->
     list_proposals (Some s) c w = list_proposals None c w /\
     list_proposals g (Some s) w = list_proposals g None w).
Proof.
  assert (exists filt,
     list_proposals g c w =
     (Return (listing w "proposal" (fun d => agrees "gig_id" g d && agrees "client_id" c d)),
      logged w [Find "proposal" filt 100])) as E.
  { unfold list_proposals.
    destruct (truthy g && is_valid (default "" g)) eqn:G;
    destruct (truthy c && is_valid (default "" c)) eqn:C; simpl app;
    eexists; (erewrite listing_run by reflexivity);
    f_equal; f_equal; apply listing_ext; intros d;
    rewrite !agrees_spec, G, C; simpl; rewrite ?holds_equals, ?andb_true_r; reflexivity. }
  split; [exact E|]. split.
  - destruct E as [filt ->]. reflexivity.
  - intros s V. unfold list_proposals. simpl. rewrite V, !andb_false_r. split; reflexivity.
Qed.


(** C9: on every listing route a parameter given as the empty string does
    what an absent parameter does: an empty [role] lists all users (the first
    hundred, unfiltered), an empty [category] or [q] adds no filter to a gig
    listing, and an empty [gig_id] or [client_id] adds none to a proposal
    listing. *)
Theorem empty_parameter_is_absent w (category q g c : option string) :
  list_users (Some "") w = list_users None w /\
  list_users (Some "") w =
    (Return (listing w "user" (fun _ => true)), logged w [Find "user" [] 100]) /\
  list_gigs (Some "") q w = list_gigs None q w /\
  list_gigs category (Some "") w = list_gigs category None w /\
  list_proposals (Some "") c w = list_proposals None c w /\
  list_proposals g (Some "") w = list_proposals g None w.
Proof.
  split; [reflexivity|]. split.
  { unfold list_users. simpl truthy. cbv iota. now erewrite listing_run by reflexivity. }
  repeat split; try reflexivity.
Qed.

(** ** Searching gigs *)

Lemma holds_search q v :
  holds (TSearch Regex.store_dialect_i (Regex.literal q)) v = true <-> field_contains q v.
Proof.
  unfold field_contains. destruct v as [[]|]; simpl;
    try (split; [discriminate | intros (s' & E & _); discriminate]).
  unfold Regex.search. rewrite search_literal, occurs_ci. split.
  - intros S. now exists s.
  - now intros (s' & [= ->] & S).
Qed.

Lemma plan_search q :
  Regex.plain q = true ->
  plan_clause (search_clause q) =
  Return (PAnyOf [("title", TSearch Regex.store_dialect_i (Regex.literal q));
                  ("description", TSearch Regex.store_dialect_i (Regex.literal q));
                  ("creator_name", TSearch Regex.store_dialect_i (Regex.literal q))]).
Proof.
  intros P. unfold plan_clause, search_clause, plan_alternatives, plan_matcher.
  rewrite (compile_plain q P). reflexivity.
Qed.

(** C6, as amended: when [q] is made of plain characters only (ASCII, none
    of them special in a pattern), a gig listing answers with the first
    hundred gigs, in store order, that satisfy both filters: [category] is
    matched exactly, and [q] is a substring, case set aside, of [title],
    [description] or [creator_name]. *)
Theorem list_gigs_plain category q w :
  Regex.plain (default "" q) = true ->
  exists keep filt,
    (forall d, keep d = true <-> gig_wanted category q d) /\
    list_gigs category q w = (Return (listing w "gig" keep), logged w [Find "gig" filt 100]).
Proof.
  intros P. unfold list_gigs, gig_wanted.
  destruct (truthy category) eqn:C; destruct (truthy q) eqn:Q; simpl app.
  - eexists _, _. split; [|apply listing_run; cbn [plan]; rewrite (plan_search _ P); reflexivity].
    intros d. unfold selected. simpl. rewrite !andb_true_r, andb_true_iff, !orb_false_r.
    rewrite !orb_true_iff, !holds_search, holds_equals.
    unfold is_string. destruct (d !! "category") as [[]|]; try (split; [intros [? _]; discriminate | intros [E _]; now specialize (E eq_refl)]).
    rewrite bool_decide_eq_true. split.
    + intros [-> S]. split; intros _; [reflexivity | tauto].
    + intros [E S]. specialize (E eq_refl) as [= ->]. split; [reflexivity | tauto].
  - eexists _, _. split; [|apply listing_run; reflexivity].
    intros d. unfold selected. simpl. rewrite !andb_true_r, holds_equals.
    unfold is_string. destruct (d !! "category") as [[]|]; try (split; [discriminate | intros [E _]; now specialize (E eq_refl)]).
    rewrite bool_decide_eq_true. split.
    + intros ->. split; [reflexivity | discriminate].
    + intros [E _]. now specialize (E eq_refl) as [= ->].
  - eexists _, _. split; [|apply listing_run; cbn [plan]; rewrite (plan_search _ P); reflexivity].
    intros d. unfold selected. simpl. rewrite !andb_true_r, !orb_false_r.
    rewrite !orb_true_iff, !holds_search. split.
    + intros S. split; [discriminate | tauto].
    + intros [_ S]. tauto.
  - eexists _, _. split; [|apply listing_run; reflexivity].
    intros d. simpl. split; [|reflexivity]. intros _. split; discriminate.
Qed.


(** ** The serializer *)

(** C4, as amended: on a record with no [_id] field the serializer returns
    the record unchanged when it is absent or empty, and raises [KeyError]
    for [_id] otherwise. *)
Theorem serialize_doc_without_id d :
  no_native_id d ->
  serialize_doc d = if falsy d then Return d else Raise (KeyError "_id").
Proof.
  intros N. unfold serialize_doc. destruct d as [d'|]; [|reflexivity].
  destruct (falsy (Some d')); [reflexivity|]. now rewrite (N d' eq_refl).
Qed.

(** ** Validation *)

Lemma required_str o k n : required v_str o k = Some n <-> o !! k = Some (JStr n).
Proof.
  unfold required. destruct (o !! k) as [[]|]; simpl; split; congruence.
Qed.

Lemma required_email o k a :
  required v_email o k = Some a <->
  exists e, o !! k = Some (JStr e) /\ validate_email e = Some a.
Proof.
  unfold required, v_email. destruct (o !! k) as [[]|]; simpl;
    try (split; [discriminate | intros (e & E & _); discriminate]).
  split; [intros E; now exists s | now intros (e & [= ->] & E)].
Qed.

Lemma required_pattern p o k s :
  required (v_pattern p) o k = Some s <->
  o !! k = Some (JStr s) /\ matches_pattern p s = true.
Proof.
  unfold required, v_pattern. destruct (o !! k) as [[]|]; simpl;
    try (split; [discriminate | intros [E _]; discriminate]).
  destruct (matches_pattern p s0) eqn:E; split.
  - now intros [= ->].
  - now intros [[= ->] _].
  - discriminate.
  - intros [[= ->] E']. congruence.
Qed.

Lemma validate_User_Some o u :
  validate_User (JObj o) = Some u ->
  required v_str o "name" = Some (name u) /\
  required v_email o "email" = Some (email u) /\
  required (v_pattern "^(creator|client)$") o "role" = Some (role u).
Proof.
  unfold validate_User.
  destruct (required v_str o "name"); [|discriminate].
  destruct (required v_email o "email"); [|discriminate].
  destruct (required (v_pattern "^(creator|client)$") o "role"); [|discriminate].
  simpl.
  destruct (defaulted (v_optional v_str) None o "bio"); [|discriminate].
  destruct (defaulted (v_optional v_list_str) (Some []) o "skills"); [|discriminate].
  destruct (defaulted (v_optional v_str) None o "avatar_url"); [|discriminate].
  destruct (defaulted as_bool true o "is_active"); [|discriminate].
  simpl. now intros [= <-].
Qed.

Lemma validate_User_is_Some o :
  is_Some (validate_User (JObj o)) <->
  is_Some (required v_str o "name") /\
  is_Some (required v_email o "email") /\
  is_Some (required (v_pattern "^(creator|client)$") o "role") /\
  user_optionals_ok o.
Proof.
  unfold validate_User, user_optionals_ok.
  destruct (required v_str o "name");
  destruct (required v_email o "email");
  destruct (required (v_pattern "^(creator|client)$") o "role");
  destruct (defaulted (v_optional v_str) None o "bio");
  destruct (defaulted (v_optional v_list_str) (Some []) o "skills");
  destruct (defaulted (v_optional v_str) None o "avatar_url");
  destruct (defaulted as_bool true o "is_active"); simpl;
  split; intros X; repeat split; eauto;
  try (destruct X as [? X]; discriminate X);
  repeat match goal with
         | X : _ /\ _ |- _ => destruct X
         | X : is_Some None |- _ => destruct X as [? X]; discriminate X
         end.
Qed.

(** C5, as amended: a user body is accepted exactly when [name] is there and
    is a string, [email] is there and is a string the address check accepts,
    [role] is exactly [creator] or [client], and the optional fields are of
    their declared types; the accepted user has the name that was sent, the
    empty string included. *)
Theorem validate_User_accepts o :
  (is_Some (validate_User (JObj o)) <->
     (exists n, o !! "name" = Some (JStr n)) /\
     (exists e, o !! "email" = Some (JStr e) /\ is_Some (validate_email e)) /\
     (o !! "role" = Some (JStr "creator") \/ o !! "role" = Some (JStr "client")) /\
     user_optionals_ok o) /\
  (forall u, validate_User (JObj o) = Some u -> o !! "name" = Some (JStr (name u))).
Proof.
  split.
  - rewrite validate_User_is_Some. split.
    + intros ([n N] & [a A] & [r R] & O).
      apply required_str in N. apply required_email in A as (e & E & A).
      apply required_pattern in R as [R P]. apply role_pattern in P.
      split; [now exists n|]. split; [|split; [|exact O]].
      * exists e. split; [exact E | now exists a].
      * destruct P as [-> | ->]; tauto.
    + intros ([n N] & (e & E & [a A]) & R & O).
      split; [|split; [|split; [|exact O]]].
      * exists n. now apply required_str.
      * exists a. apply required_email. now exists e.
      * destruct R as [R | R]; [exists "creator" | exists "client"];
          apply required_pattern; (split; [exact R | apply role_pattern; tauto]).
  - intros u U. apply validate_User_Some in U as (N & _). now apply required_str.
Qed.


(** ** What a request does to the store *)

Lemma traverse_lift_world {A B} (g : A -> outcome B) l w :
  (traverse (fun a => lift (g a)) l w).2 = w.
Proof.
  induction l as [|a l IH]; [reflexivity|].
  simpl traverse. unfold bind at 1. unfold lift at 1.
  destruct (g a); try reflexivity.
  unfold bind at 1. destruct (traverse _ l w) as [[] w'] eqn:E;
    exact IH.
Qed.

Lemma listing_world name filt w :
  (bind (get_documents name filt 100)
        (fun docs => traverse (fun d => lift (serialize_doc (Some d))) docs) w).2
  = logged w [Find name filt 100].
Proof.
  run. destruct (plan filt); try reflexivity.
  apply traverse_lift_world.
Qed.

Lemma bind_ret_world {A B} (c : M A) (f : A -> B) w :
  (bind c (fun a => ret (f a)) w).2 = (c w).2.
Proof. unfold bind, ret. destruct (c w) as [[] ?]; reflexivity. Qed.

Lemma validate_Proposal_status body p :
  validate_Proposal body = Some p -> status p ∈ status_values.
Proof.
  destruct body; try discriminate. unfold validate_Proposal.
  destruct (required v_str o "gig_id"); [|discriminate].
  destruct (required v_str o "client_id"); [|discriminate].
  destruct (required v_str o "message"); [|discriminate].
  simpl.
  destruct (defaulted (v_optional v_float_ge0) None o "offered_price"); [|discriminate].
  destruct (defaulted (v_pattern "^(pending|accepted|rejected)$") "pending" o "status") as [st|] eqn:S;
    [|discriminate].
  simpl. intros [= <-]. simpl. unfold defaulted in S.
  destruct (o !! "status") as [j|] eqn:J.
  - assert (required (v_pattern "^(pending|accepted|rejected)$") o "status" = Some st) as R
      by (unfold required; now rewrite J).
    apply required_pattern in R as [_ P]. apply status_pattern in P.
    unfold status_values. rewrite !elem_of_cons. tauto.
  - injection S as <-. unfold status_values. rewrite elem_of_cons. now left.
Qed.

Lemma route_step_ok r w : step_ok w (route r w).2.
Proof.
  destruct r as [body|role|body|category q|body|g c]; unfold route;
    rewrite bind_ret_world.
  - unfold validated. destruct (validate_User body) as [u|].
    + right. exists [], "user", (model_dump u). split; [reflexivity | discriminate].
    + left. exists []. now rewrite logged_nil.
  - left. eexists. apply listing_world.
  - unfold validated. destruct (validate_Gig body) as [gig|].
    + destruct (resolution w "user" (creator_id gig)) as [U | (o & u & R)].
      * left. destruct (create_gig_unresolved gig w U) as (l & -> & _). now exists l.
      * right. rewrite (create_gig_resolves gig w o u R).
        eexists _, _, _. split; [reflexivity | discriminate].
    + left. exists []. now rewrite logged_nil.
  - left. eexists. apply listing_world.
  - unfold validated. destruct (validate_Proposal body) as [p|] eqn:V.
    + destruct (resolution w "gig" (gig_id p)) as [U | (o & u & R)].
      * left. destruct (create_proposal_gig_unresolved p w U) as (l & -> & _). now exists l.
      * destruct (resolution w "user" (client_id p)) as [U' | (o' & u' & R')].
        -- left. destruct (create_proposal_client_unresolved p w o u R U') as (l & -> & _).
           now eexists.
        -- right. rewrite (create_proposal_resolves p w o u o' u' R R').
           eexists _, _, _. split; [reflexivity|]. intros _.
           exists (status p). split; [reflexivity|].
           exact (validate_Proposal_status _ _ V).
    + left. exists []. now rewrite logged_nil.
  - left. eexists. apply listing_world.
Qed.

Lemma step_ok_proposals w w' : step_ok w w' -> proposals_ok w -> proposals_ok w'.
Proof.
  intros [[l ->] | (l & n & d & -> & S)] P; [exact P|].
  intros e. unfold inserted, collection at 1. simpl.
  destruct (decide (n = "proposal")) as [-> | N].
  - rewrite lookup_insert_eq. simpl. rewrite elem_of_app, list_elem_of_singleton.
    intros [E | ->]; [now apply P | now apply S].
  - rewrite lookup_insert_ne by exact N. apply P.
Qed.

(** C8: no request ever stores a proposal whose status is not [pending],
    [accepted] or [rejected]; a proposal body whose [status] is anything else
    is refused with a validation error while the store and the log of
    operations are untouched; and a body with no [status] is validated to a
    proposal with status [pending]. *)
Theorem proposal_status_invariant :
  (forall r w, proposals_ok w -> proposals_ok (route r w).2) /\
  (forall o j w,
     o !! "status" = Some j ->
     (forall s, s ∈ status_values -> j <> JStr s) ->
     route (POST_proposals (JObj o)) w = (Raise RequestValidationError, w)) /\
  (forall o p,
     o !! "status" = None ->
     validate_Proposal (JObj o) = Some p -> status p = "pending").
Proof.
  split; [|split].
  - intros r w. apply step_ok_proposals, route_step_ok.
  - intros o j w J N. unfold route, validated.
    destruct (validate_Proposal (JObj o)) as [p|] eqn:V; [|reflexivity].
    exfalso. pose proof (validate_Proposal_status _ _ V) as S.
    unfold validate_Proposal in V.
    destruct (required v_str o "gig_id"); [|discriminate].
    destruct (required v_str o "client_id"); [|discriminate].
    destruct (required v_str o "message"); [|discriminate].
    simpl in V.
    destruct (defaulted (v_optional v_float_ge0) None o "offered_price"); [|discriminate].
    destruct (defaulted (v_pattern "^(pending|accepted|rejected)$") "pending" o "status") as [st|] eqn:D;
      [|discriminate].
    simpl in V. injection V as <-. simpl in S.
    unfold defaulted in D. rewrite J in D. unfold v_pattern in D.
    destruct j as [| | |supplied| |]; try discriminate. simpl in D.
    destruct (matches_pattern _ supplied); [|discriminate]. injection D as ->.
    exact (N st S eq_refl).
  - intros o p J V. unfold validate_Proposal in V.
    destruct (required v_str o "gig_id"); [|discriminate].
    destruct (required v_str o "client_id"); [|discriminate].
    destruct (required v_str o "message"); [|discriminate].
    simpl in V.
    destruct (defaulted (v_optional v_float_ge0) None o "offered_price"); [|discriminate].
    unfold defaulted in V at 1. rewrite J in V. simpl in V. now injection V as <-.
Qed.


(** ** Creating a gig, creating a proposal *)

Lemma reads_are_not_writes name l :
  only_reads_of name l -> Forall (fun x => is_write x = false) l.
Proof. intros R. eapply Forall_impl; [exact R|]. now intros x [o ->]. Qed.

(** C1: when [creator_id] is no valid identifier, or is the identifier of no
    user, [create_gig] raises 404 [Creator not found]; the collections are
    what they were, and no operation it ran was a write. *)
Theorem create_gig_creator_not_found gig w :
  unresolved w "user" (creator_id gig) ->
  exists l,
    create_gig gig w = (Raise (HTTPException 404 "Creator not found"), logged w l) /\
    Forall (fun x => is_write x = false) l.
Proof.
  intros U. destruct (create_gig_unresolved gig w U) as (l & E & R).
  exists l. split; [exact E | exact (reads_are_not_writes _ _ R)].
Qed.

(** C2: when [gig_id] names no gig, [create_proposal] raises 404
    [Gig not found] whatever [client_id] is, an unresolvable one included; the
    operations it ran are lookups of the gig, none is a lookup of a user, and
    nothing is written. *)
Theorem create_proposal_gig_checked_first p w :
  unresolved w "gig" (gig_id p) ->
  exists l,
    create_proposal p w = (Raise (HTTPException 404 "Gig not found"), logged w l) /\
    only_reads_of "gig" l /\
    (forall o, FindOne "user" o ∉ l).
Proof.
  intros U. destruct (create_proposal_gig_unresolved p w U) as (l & E & R).
  exists l. split; [exact E|]. split; [exact R|].
  intros o I. unfold only_reads_of in R. rewrite Forall_forall in R.
  destruct (R _ I) as [o' [=]].
Qed.

(** C3: when [creator_id] names a user whose name is [n], [create_gig]
    succeeds and the gig it appends to the collection has [creator_name] equal
    to [n], whatever [creator_name] the caller supplied. *)
Theorem create_gig_creator_name gig supplied w o u n :
  resolves w "user" (creator_id gig) o u ->
  u !! "name" = Some n ->
  exists r e,
    (create_gig (with_creator_name gig supplied) w).1 = Return r /\
    collection (create_gig (with_creator_name gig supplied) w).2 "gig"
      = (collection w "gig" ++ [e])%list /\
    e.2 !! "creator_name" = Some n.
Proof.
  intros R N.
  rewrite (create_gig_resolves (with_creator_name gig supplied) w o u R).
  eexists _, _. split; [reflexivity|]. split.
  - unfold inserted, collection at 1. simpl. rewrite lookup_insert_eq. reflexivity.
  - simpl. unfold get. rewrite N. reflexivity.
Qed.

(** C10: when [create_gig] succeeds, the gig it appends to the collection
    has the [title], [description], [category], [price] and [creator_id] of
    the validated input: every field but [creator_name] is as [model_dump]
    gives it for the input. *)
Theorem create_gig_frame gig w r :
  (create_gig gig w).1 = Return r ->
  exists e,
    collection (create_gig gig w).2 "gig" = (collection w "gig" ++ [e])%list /\
    e.2 !! "title" = Some (VStr (title gig)) /\
    e.2 !! "description" = Some (VStr (description gig)) /\
    e.2 !! "category" = Some (VStr (category gig)) /\
    e.2 !! "price" = Some (VFloat (price gig)) /\
    e.2 !! "creator_id" = Some (VStr (creator_id gig)) /\
    (forall k, k <> "creator_name" -> e.2 !! k = model_dump gig !! k).
Proof.
  intros E.
  destruct (resolution w "user" (creator_id gig)) as [U | (o & u & R)].
  - destruct (create_gig_unresolved gig w U) as (l & E' & _).
    rewrite E' in E. discriminate.
  - rewrite (create_gig_resolves gig w o u R).
    eexists. split.
    { unfold inserted, collection at 1. simpl. rewrite lookup_insert_eq. reflexivity. }
    repeat split.
    intros k K. simpl. rewrite !lookup_insert.
    repeat case_decide; try reflexivity; congruence.
Qed.

(* --------------------------------------------------------------------- *)
(** ** Further facts: what the routes do to the store *)

Lemma collection_logged w l name : collection (logged w l) name = collection w name.
Proof. reflexivity. Qed.

Lemma collection_inserted w l n d name :
  collection (inserted w l n d) name =
  if decide (n = name) then (collection w name ++ [(generate (issued w), d)])%list
  else collection w name.
Proof.
  unfold inserted, collection at 1. simpl. destruct (decide (n = name)) as [-> | N].
  - now rewrite lookup_insert_eq.
  - now rewrite lookup_insert_ne.
Qed.

Lemma collection_inserted_same w l n d :
  collection (inserted w l n d) n = (collection w n ++ [(generate (issued w), d)])%list.
Proof. rewrite collection_inserted. now rewrite decide_True. Qed.

Lemma find_app_Some {A} (f : A -> bool) l l' x :
  List.find f l = Some x -> List.find f (l ++ l') = Some x.
Proof.
  induction l as [|a l IH]; [discriminate|]. simpl. destruct (f a); [trivial | exact IH].
Qed.

Lemma by_id_inserted w l n d name o u :
  by_id w name o = Some u -> by_id (inserted w l n d) name o = Some u.
Proof.
  unfold by_id. rewrite collection_inserted. destruct (decide (n = name)); [|trivial].
  destruct (List.find _ (collection w name)) as [x|] eqn:F; [|discriminate].
  now rewrite (find_app_Some _ _ _ _ F).
Qed.

Lemma resolves_effect w w' name s o u :
  effect w w' -> resolves w name s o u -> resolves w' name s o u.
Proof.
  intros E (V & O & B). split; [exact V|]. split; [exact O|].
  destruct E; [exact B | now apply by_id_inserted ..].
Qed.

Lemma create_user_run (u : User) w :
  create_user u w =
  (Return (id_response (str (VObjectId (generate (issued w))))),
   inserted w [] "user" (model_dump u)).
Proof. reflexivity. Qed.

Lemma list_users_world role w :
  exists filt, (list_users role w).2 = logged w [Find "user" filt 100].
Proof. eexists. apply listing_world. Qed.

Lemma list_gigs_world category q w :
  exists filt, (list_gigs category q w).2 = logged w [Find "gig" filt 100].
Proof. eexists. apply listing_world. Qed.

Lemma list_proposals_world g c w :
  exists filt, (list_proposals g c w).2 = logged w [Find "proposal" filt 100].
Proof. eexists. apply listing_world. Qed.

Lemma route_effect r w : effect w (route r w).2.
Proof.
  destruct r as [body|role|body|category q|body|g c]; unfold route;
    rewrite bind_ret_world.
  - unfold validated. destruct (validate_User body) as [u|].
    + rewrite create_user_run. apply NewUser.
    + rewrite <- (logged_nil w) at 2. apply Read.
  - destruct (list_users_world role w) as [f ->]. apply Read.
  - unfold validated. destruct (validate_Gig body) as [gig|].
    + destruct (resolution w "user" (creator_id gig)) as [U | (o & u & R)].
      * destruct (create_gig_unresolved gig w U) as (l & -> & _). apply Read.
      * rewrite (create_gig_resolves gig w o u R). now apply (NewGig w gig o u).
    + rewrite <- (logged_nil w) at 2. apply Read.
  - destruct (list_gigs_world category q w) as [f ->]. apply Read.
  - unfold validated. destruct (validate_Proposal body) as [p|] eqn:V.
    + destruct (resolution w "gig" (gig_id p)) as [U | (o & u & R)].
      * destruct (create_proposal_gig_unresolved p w U) as (l & -> & _). apply Read.
      * destruct (resolution w "user" (client_id p)) as [U' | (o' & u' & R')].
        -- destruct (create_proposal_client_unresolved p w o u R U') as (l & -> & _).
           apply Read.
        -- rewrite (create_proposal_resolves p w o u o' u' R R').
           apply (NewProposal w p o u o' u'); [exact R | exact R' |].
           exact (validate_Proposal_status _ _ V).
    + rewrite <- (logged_nil w) at 2. apply Read.
  - destruct (list_proposals_world g c w) as [f ->]. apply Read.
Qed.


(** ** No request takes anything back *)

Lemma effect_collection w w' name :
  effect w w' ->
  exists l, collection w' name = (collection w name ++ l)%list /\ length l <= 1.
Proof.
  intros E. destruct E;
    try (rewrite collection_inserted; destruct (decide (_ = name));
         [eexists; split; [reflexivity | simpl; lia]
         | exists []; split; [now rewrite app_nil_r | simpl; lia]]).
  exists []. split; [now rewrite app_nil_r | simpl; lia].
Qed.

(** X1: no request takes a stored document away or changes it: each collection
    afterwards is the collection before with at most one document appended. *)
Theorem route_appends_only r w name :
  exists l,
    collection (route r w).2 name = (collection w name ++ l)%list /\ length l <= 1.
Proof. apply effect_collection, route_effect. Qed.

Lemma elem_of_inserted w l n d name e :
  e ∈ collection (inserted w l n d) name ->
  e ∈ collection w name \/ (n = name /\ e = (generate (issued w), d)).
Proof.
  rewrite collection_inserted. destruct (decide (n = name)) as [-> | N]; [|now left].
  rewrite elem_of_app, list_elem_of_singleton. intros [I | ->]; [now left | now right].
Qed.

Lemma effect_gigs_refer w w' : effect w w' -> gigs_refer w -> gigs_refer w'.
Proof.
  intros E G e I.
  assert (forall e, e ∈ collection w "gig" ->
            exists s o u, e.2 !! "creator_id" = Some (VStr s) /\
              resolves w' "user" s o u /\ e.2 !! "creator_name" = Some (get u "name")) as Old.
  { intros x X. destruct (G x X) as (s & o & u & C & R & N).
    exists s, o, u. split; [exact C|]. split; [|exact N].
    exact (resolves_effect _ _ _ _ _ _ E R). }
  pose proof E as E'.
  destruct E as [l | u | gig o u l R | p o g o' c l R R' S].
  - now apply Old.
  - apply elem_of_inserted in I as [I | [[=] _]]. now apply Old.
  - apply elem_of_inserted in I as [I | [_ ->]]; [now apply Old|].
    exists (creator_id gig), o, u. split; [reflexivity|]. split; [|reflexivity].
    exact (resolves_effect _ _ _ _ _ _ E' R).
  - apply elem_of_inserted in I as [I | [[=] _]]. now apply Old.
Qed.

(** X2: if every stored gig names a stored user by its [creator_id] and carries
    that user's name, this is still so after any request. *)
Theorem route_keeps_gigs_referring r w : gigs_refer w -> gigs_refer (route r w).2.
Proof. apply effect_gigs_refer, route_effect. Qed.

Lemma effect_proposals_refer w w' : effect w w' -> proposals_refer w -> proposals_refer w'.
Proof.
  intros E P e I.
  assert (forall e, e ∈ collection w "proposal" ->
            exists g c o dg o' dc,
              e.2 !! "gig_id" = Some (VStr g) /\ e.2 !! "client_id" = Some (VStr c) /\
              resolves w' "gig" g o dg /\ resolves w' "user" c o' dc) as Old.
  { intros x X. destruct (P x X) as (g & c & o & dg & o' & dc & G & C & R & R').
    exists g, c, o, dg, o', dc. repeat split; try assumption;
      eapply resolves_effect; eassumption. }
  pose proof E as E'.
  destruct E as [l | u | gig o u l R | p o g o' c l R R' S].
  - now apply Old.
  - apply elem_of_inserted in I as [I | [[=] _]]. now apply Old.
  - apply elem_of_inserted in I as [I | [[=] _]]. now apply Old.
  - apply elem_of_inserted in I as [I | [_ ->]]; [now apply Old|].
    exists (gig_id p), (client_id p), o, g, o', c.
    split; [reflexivity|]. split; [reflexivity|].
    split; eapply resolves_effect; eassumption.
Qed.

(** X3: if every stored proposal names a stored gig and a stored user, this is
    still so after any request. *)
Theorem route_keeps_proposals_referring r w :
  proposals_refer w -> proposals_refer (route r w).2.
Proof. apply effect_proposals_refer, route_effect. Qed.


(** ** Listings, whatever the filter *)

Lemma listing_general name filt w :
  (bind (get_documents name filt 100)
        (fun docs => traverse (fun d => lift (serialize_doc (Some d))) docs) w).1
  = and_then (plan filt) (fun ps => Return (listing w name (selected ps))).
Proof.
  destruct (plan filt) as [ps| |] eqn:P.
  - now rewrite (listing_run name filt ps w P).
  - run. now rewrite P.
  - run. now rewrite P.
Qed.

Lemma bind_ret_outcome {A B} (c : M A) (f : A -> B) w :
  (bind c (fun a => ret (f a)) w).1 = and_then (c w).1 (fun a => Return (f a)).
Proof. unfold bind, ret. destruct (c w) as [[] ?]; reflexivity. Qed.

Lemma route_listing r w l :
  (route r w).1 = Return (Listing l) ->
  exists name keep, l = listing w name keep.
Proof.
  destruct r as [body|role|body|category q|body|g c]; unfold route;
    rewrite bind_ret_outcome.
  - destruct (validated _ _ _ _).1; discriminate.
  - unfold list_users. rewrite listing_general. destruct (plan _); try discriminate.
    simpl. intros [= <-]. eauto.
  - destruct (validated _ _ _ _).1; discriminate.
  - unfold list_gigs. rewrite listing_general. destruct (plan _); try discriminate.
    simpl. intros [= <-]. eauto.
  - destruct (validated _ _ _ _).1; discriminate.
  - unfold list_proposals. rewrite listing_general. destruct (plan _); try discriminate.
    simpl. intros [= <-]. eauto.
Qed.

(** X4: a listing that is answered holds at most a hundred records. *)
Theorem listings_are_capped r w l :
  (route r w).1 = Return (Listing l) -> length l <= 100.
Proof.
  intros E. destruct (route_listing r w l E) as (name & keep & ->).
  unfold listing. rewrite length_fmap, length_take. lia.
Qed.

Lemma public_transport_safe e : transport_safe (public e).
Proof.
  unfold transport_safe, public. split; [|split].
  - rewrite lookup_fmap, lookup_insert_ne by discriminate. now rewrite lookup_delete_eq.
  - exists (str (VObjectId e.1)). now rewrite lookup_fmap, lookup_insert_eq.
  - intros k t. rewrite lookup_fmap. destruct (_ !! k) as [[]|]; discriminate.
Qed.

(** X5: every record of a listing is there, has its identifier as a string
    under [id], has no [_id], and holds no time stamp. *)
Theorem listings_are_transport_safe r w l :
  (route r w).1 = Return (Listing l) ->
  Forall (fun x => exists d, x = Some d /\ transport_safe d) l.
Proof.
  intros E. destruct (route_listing r w l E) as (name & keep & ->).
  unfold listing. apply Forall_fmap, Forall_forall. intros e _. simpl.
  exists (public e). split; [reflexivity | apply public_transport_safe].
Qed.

(** X6: a listing route leaves the collections as they are and runs exactly
    one [find], with limit 100, also when it fails. *)
Theorem listings_only_read r w :
  is_listing r = true ->
  db (route r w).2 = db w /\ issued (route r w).2 = issued w /\
  exists name filt, log (route r w).2 = (log w ++ [Find name filt 100])%list.
Proof.
  destruct r as [body|role|body|category q|body|g c]; try discriminate; intros _;
    unfold route; rewrite bind_ret_world.
  - destruct (list_users_world role w) as [f ->]. repeat split; eauto.
  - destruct (list_gigs_world category q w) as [f ->]. repeat split; eauto.
  - destruct (list_proposals_world g c w) as [f ->]. repeat split; eauto.
Qed.


(** ** The serializer on any document *)

Lemma serialize_doc_with_id d i :
  d !! "_id" = Some i ->
  serialize_doc (Some d) = Return (Some (iso <$> <["id" := VStr (str i)]> (delete "_id" d))).
Proof.
  intros I. unfold serialize_doc. simpl.
  rewrite bool_decide_eq_false_2.
  - now rewrite I.
  - intros ->. now rewrite lookup_empty in I.
Qed.

(** X7: on a document with an [_id] the serializer succeeds: the result has no
    [_id], has [str] of it under [id] whatever was there, and has every other
    field of the document, converted by [iso]. *)
Theorem serialize_doc_renames_id d i :
  d !! "_id" = Some i ->
  exists r,
    serialize_doc (Some d) = Return (Some r) /\
    r !! "_id" = None /\
    r !! "id" = Some (VStr (str i)) /\
    (forall k, k <> "_id" -> k <> "id" -> r !! k = iso <$> d !! k).
Proof.
  intros I. eexists. split; [exact (serialize_doc_with_id d i I)|]. split; [|split].
  - rewrite lookup_fmap, lookup_insert_ne by discriminate. now rewrite lookup_delete_eq.
  - now rewrite lookup_fmap, lookup_insert_eq.
  - intros k K K'. rewrite lookup_fmap, lookup_insert_ne by congruence.
    now rewrite lookup_delete_ne by congruence.
Qed.

(** X8: the result of the serializer holds no time stamp; a time stamp has
    become its [isoformat] text and any other value is what it was. *)
Theorem serialize_doc_converts_time d i r :
  d !! "_id" = Some i ->
  serialize_doc (Some d) = Return (Some r) ->
  (forall k t, r !! k <> Some (VDatetime t)) /\
  (forall k t, k <> "_id" -> k <> "id" ->
     d !! k = Some (VDatetime t) -> r !! k = Some (VStr (isoformat t))) /\
  (forall k v, k <> "_id" -> k <> "id" ->
     d !! k = Some v -> (forall t, v <> VDatetime t) -> r !! k = Some v).
Proof.
  intros I. rewrite (serialize_doc_with_id d i I). intros [= <-]. split; [|split].
  - intros k t. rewrite lookup_fmap. destruct (_ !! k) as [[]|]; discriminate.
  - intros k t K K' D. rewrite lookup_fmap, lookup_insert_ne by congruence.
    rewrite lookup_delete_ne by congruence. now rewrite D.
  - intros k v K K' D N. rewrite lookup_fmap, lookup_insert_ne by congruence.
    rewrite lookup_delete_ne by congruence. rewrite D. simpl.
    destruct v; try reflexivity. now destruct (N t).
Qed.

(** X9: serializing what the serializer returned for a document with an [_id]
    raises [KeyError] for [_id]. *)
Theorem serialize_doc_twice_raises d i r :
  d !! "_id" = Some i ->
  serialize_doc (Some d) = Return r ->
  serialize_doc r = Raise (KeyError "_id").
Proof.
  intros I. rewrite (serialize_doc_with_id d i I). intros [= <-].
  unfold serialize_doc. simpl.
  rewrite bool_decide_eq_false_2.
  - rewrite lookup_fmap, lookup_insert_ne by discriminate. now rewrite lookup_delete_eq.
  - intros E. apply (f_equal (fun m => m !! "id")) in E.
    rewrite lookup_fmap, lookup_insert_eq, lookup_empty in E. discriminate.
Qed.


(** ** Creation, case by case *)

(** X10: when the gig is there and the client is not, [create_proposal] raises
    404 [Client not found] after the lookup of the gig and lookups of users
    only, and nothing is written. *)
Theorem create_proposal_client_not_found p w o g :
  resolves w "gig" (gig_id p) o g ->
  unresolved w "user" (client_id p) ->
  exists l,
    create_proposal p w =
      (Raise (HTTPException 404 "Client not found"), logged w (FindOne "gig" o :: l)) /\
    only_reads_of "user" l.
Proof. apply create_proposal_client_unresolved. Qed.

(** X11: when the gig and the client are there, [create_proposal] returns the new
    identifier and appends one proposal with the five fields of the input; the
    gigs and the users are what they were. *)
Theorem create_proposal_stores_input p w o g o' c :
  resolves w "gig" (gig_id p) o g ->
  resolves w "user" (client_id p) o' c ->
  exists e,
    create_proposal p w =
      (Return (id_response (str (VObjectId e.1))),
       inserted w [FindOne "gig" o; FindOne "user" o'] "proposal" e.2) /\
    collection (create_proposal p w).2 "proposal" = (collection w "proposal" ++ [e])%list /\
    collection (create_proposal p w).2 "gig" = collection w "gig" /\
    collection (create_proposal p w).2 "user" = collection w "user" /\
    e.2 !! "gig_id" = Some (VStr (gig_id p)) /\
    e.2 !! "client_id" = Some (VStr (client_id p)) /\
    e.2 !! "message" = Some (VStr (message p)) /\
    e.2 !! "offered_price" = Some (of_option VFloat (offered_price p)) /\
    e.2 !! "status" = Some (VStr (status p)).
Proof.
  intros R R'. exists (generate (issued w), model_dump p).
  rewrite (create_proposal_resolves p w o g o' c R R'). cbn [fst snd].
  rewrite collection_inserted_same, !collection_inserted.
  repeat split; reflexivity.
Qed.

(** X12: when the creator's document has no [name], [create_gig] succeeds and
    the gig is stored with [creator_name] [None]. *)
Theorem create_gig_nameless_creator gig w o u :
  resolves w "user" (creator_id gig) o u ->
  u !! "name" = None ->
  exists r e,
    (create_gig gig w).1 = Return r /\
    collection (create_gig gig w).2 "gig" = (collection w "gig" ++ [e])%list /\
    e.2 !! "creator_name" = Some VNone.
Proof.
  intros R N. rewrite (create_gig_resolves gig w o u R). cbn [fst snd].
  eexists _, _. split; [reflexivity|]. split.
  - rewrite collection_inserted. simpl. reflexivity.
  - simpl. unfold get. now rewrite N.
Qed.

(** ** Creating, then reading *)





(** X15: [create_user] run twice on the same user succeeds twice and stores two
    users with the same email. *)
Theorem duplicate_users_are_accepted (u : User) w :
  exists i i' e e',
    (create_user u w).1 = Return (id_response i) /\
    (create_user u (create_user u w).2).1 = Return (id_response i') /\
    collection (create_user u (create_user u w).2).2 "user"
      = (collection w "user" ++ [e; e'])%list /\
    e.2 !! "email" = Some (VStr (email u)) /\
    e'.2 !! "email" = Some (VStr (email u)).
Proof.
  rewrite !create_user_run. cbn [fst snd]. rewrite !collection_inserted_same.
  eexists _, _, _, _. rewrite <- app_assoc. repeat split.
Qed.



Lemma find_app_last {A} (f : A -> bool) l x :
  f x = true -> is_Some (List.find f (l ++ [x])).
Proof.
  intros F. induction l as [|a l IH]; simpl.
  - rewrite F. eauto.
  - destruct (f a); [eauto | exact IH].
Qed.

Lemma find_app_None {A} (f : A -> bool) l x :
  List.find f l = None -> f x = true -> List.find f (l ++ [x]) = Some x.
Proof.
  intros N F. induction l as [|a l IH]; simpl in *.
  - now rewrite F.
  - destruct (f a); [discriminate | now apply IH].
Qed.

(** X17: when the identifier issued to a new user is fresh, and read back by
    [ObjectId] from its [str], a gig created next with that identifier as
    [creator_id] is stored with the new user's name as [creator_name]. *)
Theorem created_user_can_offer_gig (u : User) gig w :
  let o := generate (issued w) in
  by_id w "user" o = None ->
  str (VObjectId o) <> "" ->
  ObjectId (str (VObjectId o)) = Some o ->
  creator_id gig = str (VObjectId o) ->
  exists r e,
    (create_gig gig (create_user u w).2).1 = Return r /\
    collection (create_gig gig (create_user u w).2).2 "gig" = (collection w "gig" ++ [e])%list /\
    e.2 !! "creator_name" = Some (VStr (name u)).
Proof.
  intros o F N P C. rewrite create_user_run. cbn [fst snd].
  assert (resolves (inserted w [] "user" (model_dump u)) "user" (creator_id gig) o
            (as_dict (o, model_dump u))) as R.
  { rewrite C. split; [|split; [exact P|]].
    - unfold is_valid. rewrite P. rewrite bool_decide_eq_false_2 by exact N.
      simpl. first [reflexivity | apply bool_decide_eq_true; eauto].
    - unfold by_id in *. rewrite collection_inserted_same.
      destruct (List.find _ (collection w "user")) eqn:E; [discriminate|].
      rewrite (find_app_None _ _ (o, model_dump u) E); [reflexivity|].
      now apply bool_decide_eq_true. }
  rewrite (create_gig_resolves _ _ _ _ R). cbn [fst snd].
  eexists _, _. split; [reflexivity|]. split.
  - rewrite !collection_inserted. simpl. reflexivity.
  - reflexivity.
Qed.

(** X18: when the identifier issued to a new gig is read back by [ObjectId] from
    its [str], a proposal made next on that identifier by an existing client
    is accepted and stored. *)
Theorem created_gig_can_be_proposed_on gig p w oc uc o' c :
  let o := generate (issued w) in
  resolves w "user" (creator_id gig) oc uc ->
  resolves w "user" (client_id p) o' c ->
  str (VObjectId o) <> "" ->
  ObjectId (str (VObjectId o)) = Some o ->
  gig_id p = str (VObjectId o) ->
  exists r,
    (create_gig gig w).1 = Return (id_response (gig_id p)) /\
    (create_proposal p (create_gig gig w).2).1 = Return r /\
    collection (create_proposal p (create_gig gig w).2).2 "proposal"
      = (collection w "proposal" ++ [(generate (S (issued w)), model_dump p)])%list.
Proof.
  intros o R R' N P G. rewrite (create_gig_resolves gig w oc uc R). cbn [fst snd].
  set (w1 := inserted w _ "gig" _).
  assert (effect w w1) as E by (now apply (NewGig w gig oc uc)).
  assert (exists g, resolves w1 "gig" (gig_id p) o g) as [g Rg].
  { assert (is_Some (by_id w1 "gig" o)) as [g B].
    { unfold by_id, w1. rewrite collection_inserted_same. fold o.
      destruct (find_app_last (fun e : oid * doc => bool_decide (e.1 = o))
                  (collection w "gig")
                  (o, model_dump (with_creator_name gig (get uc "name")))) as [x ->];
        [now apply bool_decide_eq_true | eauto]. }
    exists g. rewrite G. split; [|split; [exact P | exact B]].
    unfold is_valid. rewrite P. rewrite bool_decide_eq_false_2 by exact N.
    simpl. first [reflexivity | apply bool_decide_eq_true; eauto]. }
  pose proof (resolves_effect _ _ _ _ _ _ E R') as Rc.
  rewrite (create_proposal_resolves p w1 o g o' c Rg Rc). cbn [fst snd].
  eexists. split; [now rewrite G|]. split; [reflexivity|].
  rewrite collection_inserted_same.
  unfold w1. rewrite collection_inserted. reflexivity.
Qed.


(** ** Listing users, searching gigs *)

(** X19: a user listing is always answered, with the first hundred users whose
    [role] is exactly the one asked for, whatever string that is, or the first
    hundred users when none is asked for. *)
Theorem list_users_filters role w :
  exists filt,
    list_users role w =
    (Return (listing w "user"
               (fun d => if truthy role then is_string (default "" role) (d !! "role") else true)),
     logged w [Find "user" filt 100]).
Proof.
  unfold list_users. destruct (truthy role) eqn:T.
  - eexists. erewrite listing_run by reflexivity. f_equal. f_equal.
    apply listing_ext. intros d. unfold selected. simpl.
    now rewrite holds_equals, andb_true_r.
  - eexists. erewrite listing_run by reflexivity. reflexivity.
Qed.

Lemma lower_str_empty q : Regex.lower_str q = "" -> q = "".
Proof. destruct q; [reflexivity | discriminate]. Qed.

Lemma holds_search_lower q q' v :
  Regex.lower_str q = Regex.lower_str q' ->
  holds (TSearch Regex.store_dialect_i (Regex.literal q)) v =
  holds (TSearch Regex.store_dialect_i (Regex.literal q')) v.
Proof.
  intros L. apply eq_true_iff_eq. rewrite !holds_search.
  unfold field_contains, Regex.substring_ci. now rewrite L.
Qed.

(** X20: two search strings of plain characters that differ in the case of their
    letters only give the same gigs. *)
Theorem list_gigs_ignores_case_of_q category q q' w :
  Regex.plain q = true ->
  Regex.plain q' = true ->
  Regex.lower_str q = Regex.lower_str q' ->
  (list_gigs category (Some q) w).1 = (list_gigs category (Some q') w).1.
Proof.
  intros P P' L. unfold list_gigs.
  assert (truthy (Some q) = truthy (Some q')) as T.
  { simpl. destruct (decide (q = "")) as [-> | N].
    - symmetry in L. apply lower_str_empty in L as ->. reflexivity.
    - rewrite !bool_decide_eq_false_2; [reflexivity | | exact N].
      intros ->. apply lower_str_empty in L. contradiction. }
  rewrite <- T. destruct (truthy (Some q)); [|reflexivity].
  rewrite !listing_general. simpl default.
  destruct (truthy category); simpl app; cbn [plan];
    rewrite (plan_search q P), (plan_search q' P'); simpl and_then;
    f_equal; apply listing_ext; intros d; unfold selected; simpl;
    now rewrite !(holds_search_lower q q' _ L).
Qed.

Lemma plan_refused q :
  Regex.compile q = Regex.Rejected ->
  plan_clause (search_clause q) = Raise OperationFailure.
Proof.
  intros R. unfold plan_clause, search_clause, plan_alternatives, plan_matcher.
  rewrite R. reflexivity.
Qed.

Lemma listing_fails name filt e w :
  plan filt = Raise e ->
  bind (get_documents name filt 100)
       (fun docs => traverse (fun d => lift (serialize_doc (Some d))) docs) w =
  (Raise e, logged w [Find name filt 100]).
Proof. intros P. run. now rewrite P. Qed.

(** X21: when [q] is a pattern the store refuses, the gig listing fails with the
    store's error, status 500, after the one [find]. *)
Theorem list_gigs_refused_pattern category q w :
  Regex.compile q = Regex.Rejected ->
  exists filt,
    list_gigs category (Some q) w = (Raise OperationFailure, logged w [Find "gig" filt 100]) /\
    status_code_of (list_gigs category (Some q) w).1 = Some 500%Z.
Proof.
  intros R.
  assert (truthy (Some q) = true) as T.
  { simpl. rewrite bool_decide_eq_false_2; [reflexivity|]. intros ->. discriminate R. }
  unfold list_gigs. rewrite T. simpl default.
  destruct (truthy category); simpl app; eexists;
    (erewrite listing_fails by (cbn [plan]; rewrite (plan_refused q R); reflexivity));
    split; reflexivity.
Qed.


(** ** Validation of gigs and proposals, defaults, unknown fields *)

Lemma required_float o k x :
  required v_float_ge0 o k = Some x <->
  exists j, o !! k = Some j /\ as_float j = Some x /\ ge_zero x = true.
Proof.
  unfold required, v_float_ge0. destruct (o !! k) as [j|]; simpl.
  - destruct (as_float j) as [y|] eqn:F; simpl.
    + destruct (ge_zero y) eqn:G; split.
      * intros [= ->]. now exists j.
      * intros (j' & [= <-] & F' & _). congruence.
      * discriminate.
      * intros (j' & [= <-] & F' & G'). congruence.
    + split; [discriminate | intros (j' & [= <-] & F' & _); congruence].
  - split; [discriminate | intros (j' & E & _); discriminate].
Qed.

Lemma optional_str o k (r : option string) :
  defaulted (v_optional v_str) None o k = Some r <->
  (o !! k = None /\ r = None) \/ (o !! k = Some JNull /\ r = None) \/
  (exists s, o !! k = Some (JStr s) /\ r = Some s).
Proof.
  unfold defaulted, v_optional. destruct (o !! k) as [[]|]; simpl; split;
    try (intros [= <-]; eauto 6; fail);
    try discriminate;
    try (intros [[[=] _] | [[[=] _] | (s' & [=] & _)]]; fail);
    try (intros [[_ ->] | [[_ ->] | (s' & [=] & _)]]; reflexivity).
  intros [[[=] _] | [[[=] _] | (s' & [= ->] & ->)]]. reflexivity.
Qed.

(** X22: a gig body is accepted exactly when [title], [description], [category]
    and [creator_id] are strings, [price] converts to a float that is not
    negative, and [creator_name] is absent, null or a string; the accepted gig
    carries the values sent. *)
Theorem validate_Gig_accepts o :
  (is_Some (validate_Gig (JObj o)) <->
     (exists t, o !! "title" = Some (JStr t)) /\
     (exists d, o !! "description" = Some (JStr d)) /\
     (exists c, o !! "category" = Some (JStr c)) /\
     (exists j x, o !! "price" = Some j /\ as_float j = Some x /\ ge_zero x = true) /\
     (exists i, o !! "creator_id" = Some (JStr i)) /\
     (o !! "creator_name" = None \/ o !! "creator_name" = Some JNull \/
      exists n, o !! "creator_name" = Some (JStr n))) /\
  (forall g, validate_Gig (JObj o) = Some g ->
     o !! "title" = Some (JStr (title g)) /\
     o !! "description" = Some (JStr (description g)) /\
     o !! "category" = Some (JStr (category g)) /\
     (exists j, o !! "price" = Some j /\ as_float j = Some (price g)) /\
     o !! "creator_id" = Some (JStr (creator_id g))).
Proof.
  unfold validate_Gig. split.
  - split.
    + intros [g G].
      destruct (required v_str o "title") as [t|] eqn:T; [|discriminate].
      destruct (required v_str o "description") as [d|] eqn:D; [|discriminate].
      destruct (required v_str o "category") as [c|] eqn:C; [|discriminate].
      destruct (required v_float_ge0 o "price") as [x|] eqn:P; [|discriminate].
      destruct (required v_str o "creator_id") as [i|] eqn:I; [|discriminate].
      simpl in G.
      destruct (defaulted (v_optional v_str) None o "creator_name") as [n|] eqn:N; [|discriminate].
      apply required_str in T, D, C, I. apply required_float in P as (j & P & F & Z).
      apply optional_str in N.
      split; [eauto|]. split; [eauto|]. split; [eauto|]. split; [eauto 6|]. split; [eauto|].
      destruct N as [[N _] | [[N _] | (n' & N & _)]]; eauto.
    + intros ([t T] & [d D] & [c C] & (j & x & P & F & Z) & [i I] & N).
      apply required_str in T, D, C, I.
      assert (required v_float_ge0 o "price" = Some x) as P'
        by (apply required_float; eauto).
      assert (exists r, defaulted (v_optional v_str) None o "creator_name" = Some r) as [r N'].
      { destruct N as [N | [N | [n N]]]; eexists; apply optional_str; eauto 6. }
      rewrite T, D, C, P', I. simpl. rewrite N'. simpl. eauto.
  - intros g G.
    destruct (required v_str o "title") as [t|] eqn:T; [|discriminate].
    destruct (required v_str o "description") as [d|] eqn:D; [|discriminate].
    destruct (required v_str o "category") as [c|] eqn:C; [|discriminate].
    destruct (required v_float_ge0 o "price") as [x|] eqn:P; [|discriminate].
    destruct (required v_str o "creator_id") as [i|] eqn:I; [|discriminate].
    simpl in G.
    destruct (defaulted (v_optional v_str) None o "creator_name") as [n|]; [|discriminate].
    simpl in G. injection G as <-. simpl.
    apply required_str in T, D, C, I. apply required_float in P as (j & P & F & Z).
    repeat split; eauto.
Qed.


Lemma optional_float o k (r : option float) :
  defaulted (v_optional v_float_ge0) None o k = Some r <->
  (o !! k = None /\ r = None) \/ (o !! k = Some JNull /\ r = None) \/
  (exists j x, o !! k = Some j /\ j <> JNull /\ as_float j = Some x /\
               ge_zero x = true /\ r = Some x).
Proof.
  unfold defaulted. destruct (o !! k) as [j|] eqn:K.
  - assert (j = JNull \/ j <> JNull) as [-> | N] by (destruct j; (now left) || (right; discriminate)).
    + simpl. split.
      * intros [= <-]. right. left. eauto.
      * intros [[[=] _] | [[_ ->] | (j & x & [= <-] & N & _)]]; [reflexivity | now destruct N].
    + assert (v_optional v_float_ge0 j = Some <$> v_float_ge0 j) as -> by (destruct j; try reflexivity; now destruct N).
      unfold v_float_ge0. destruct (as_float j) as [y|] eqn:F; simpl.
      * destruct (ge_zero y) eqn:G; simpl; split.
        -- intros [= <-]. right. right. exists j, y. eauto.
        -- intros [[[=] _] | [[[= ->] _] | (j' & x & [= <-] & _ & F' & _ & ->)]];
             [now destruct N | congruence].
        -- discriminate.
        -- intros [[[=] _] | [[[= ->] _] | (j' & x & [= <-] & _ & F' & G' & _)]];
             [now destruct N | congruence].
      * split; [discriminate|].
        intros [[[=] _] | [[[= ->] _] | (j' & x & [= <-] & _ & F' & _)]];
          [now destruct N | congruence].
  - split.
    + intros [= <-]. left. eauto.
    + intros [[_ ->] | [[[=] _] | (j & x & [=] & _)]]. reflexivity.
Qed.

Lemma defaulted_status o s :
  defaulted (v_pattern "^(pending|accepted|rejected)$") "pending" o "status" = Some s <->
  (o !! "status" = None /\ s = "pending") \/
  (o !! "status" = Some (JStr s) /\ s ∈ status_values).
Proof.
  unfold defaulted. destruct (o !! "status") as [j|] eqn:J.
  - assert (required (v_pattern "^(pending|accepted|rejected)$") o "status"
            = v_pattern "^(pending|accepted|rejected)$" j) as <-
      by (unfold required; now rewrite J).
    rewrite required_pattern, status_pattern, J. unfold status_values.
    rewrite !elem_of_cons, elem_of_nil. split.
    + intros [[= ->] S]. right. tauto.
    + intros [[[=] _] | [[= ->] S]]. tauto.
  - split.
    + intros [= <-]. now left.
    + intros [[_ ->] | [[=] _]]. reflexivity.
Qed.

(** X23: a proposal body is accepted exactly when [gig_id], [client_id] and
    [message] are strings, [offered_price] is absent, null or converts to a
    float that is not negative, and [status] is absent or one of the three
    values; an absent or null [offered_price] becomes [None]. *)
Theorem validate_Proposal_accepts o :
  (is_Some (validate_Proposal (JObj o)) <->
     (exists g, o !! "gig_id" = Some (JStr g)) /\
     (exists c, o !! "client_id" = Some (JStr c)) /\
     (exists m, o !! "message" = Some (JStr m)) /\
     (o !! "offered_price" = None \/ o !! "offered_price" = Some JNull \/
      exists j x, o !! "offered_price" = Some j /\ as_float j = Some x /\ ge_zero x = true) /\
     (o !! "status" = None \/
      exists s, o !! "status" = Some (JStr s) /\ s ∈ status_values)) /\
  (forall p, validate_Proposal (JObj o) = Some p ->
     o !! "gig_id" = Some (JStr (gig_id p)) /\
     o !! "client_id" = Some (JStr (client_id p)) /\
     o !! "message" = Some (JStr (message p)) /\
     (o !! "offered_price" = None -> offered_price p = None) /\
     (o !! "offered_price" = Some JNull -> offered_price p = None)).
Proof.
  unfold validate_Proposal. split.
  - split.
    + intros [p P].
      destruct (required v_str o "gig_id") as [g|] eqn:G; [|discriminate].
      destruct (required v_str o "client_id") as [c|] eqn:C; [|discriminate].
      destruct (required v_str o "message") as [m|] eqn:M; [|discriminate].
      simpl in P.
      destruct (defaulted (v_optional v_float_ge0) None o "offered_price") as [x|] eqn:X;
        [|discriminate].
      destruct (defaulted (v_pattern _) "pending" o "status") as [s|] eqn:S; [|discriminate].
      apply required_str in G, C, M. apply optional_float in X. apply defaulted_status in S.
      split; [eauto|]. split; [eauto|]. split; [eauto|]. split.
      * destruct X as [[X _] | [[X _] | (j & y & X & _ & F & Z & _)]]; eauto 8.
      * destruct S as [[S _] | [S V]]; eauto.
    + intros ([g G] & [c C] & [m M] & X & S).
      apply required_str in G, C, M.
      assert (exists r, defaulted (v_optional v_float_ge0) None o "offered_price" = Some r)
        as [r X'].
      { destruct X as [X | [X | (j & x & X & F & Z)]].
        - exists None. apply optional_float. eauto.
        - exists None. apply optional_float. eauto.
        - assert (j = JNull \/ j <> JNull) as [-> | N]
            by (destruct j; (now left) || (right; discriminate)).
          + exists None. apply optional_float. eauto.
          + exists (Some x). apply optional_float. right. right. exists j, x. eauto. }
      assert (exists s, defaulted (v_pattern "^(pending|accepted|rejected)$") "pending" o "status"
                        = Some s) as [s S'].
      { destruct S as [S | (s & S & V)]; eexists; apply defaulted_status; eauto. }
      rewrite G, C, M. simpl. rewrite X', S'. simpl. eauto.
  - intros p P.
    destruct (required v_str o "gig_id") as [g|] eqn:G; [|discriminate].
    destruct (required v_str o "client_id") as [c|] eqn:C; [|discriminate].
    destruct (required v_str o "message") as [m|] eqn:M; [|discriminate].
    simpl in P.
    destruct (defaulted (v_optional v_float_ge0) None o "offered_price") as [x|] eqn:X;
      [|discriminate].
    destruct (defaulted (v_pattern _) "pending" o "status") as [s|]; [|discriminate].
    simpl in P. injection P as <-. simpl.
    apply required_str in G, C, M. apply optional_float in X.
    repeat split; try assumption.
    + intros N. destruct X as [[_ ->] | [[_ ->] | (j & y & X & _)]]; try reflexivity. congruence.
    + intros N. destruct X as [[_ ->] | [[_ ->] | (j & y & X & NN & _)]]; try reflexivity.
      rewrite N in X. injection X as <-. now destruct NN.
Qed.

(** X24: in an accepted user an absent [bio] or [avatar_url] is [None], an
    absent [is_active] is true, an absent [skills] is the empty list, and a
    null [skills] is [None]. *)
Theorem validate_User_defaults o u :
  validate_User (JObj o) = Some u ->
  (o !! "bio" = None -> bio u = None) /\
  (o !! "skills" = None -> skills u = Some []) /\
  (o !! "skills" = Some JNull -> skills u = None) /\
  (o !! "avatar_url" = None -> avatar_url u = None) /\
  (o !! "is_active" = None -> is_active u = true).
Proof.
  unfold validate_User.
  destruct (required v_str o "name"); [|discriminate].
  destruct (required v_email o "email"); [|discriminate].
  destruct (required (v_pattern "^(creator|client)$") o "role"); [|discriminate].
  simpl.
  destruct (defaulted (v_optional v_str) None o "bio") as [b|] eqn:B; [|discriminate].
  destruct (defaulted (v_optional v_list_str) (Some []) o "skills") as [k|] eqn:K; [|discriminate].
  destruct (defaulted (v_optional v_str) None o "avatar_url") as [a|] eqn:A; [|discriminate].
  destruct (defaulted as_bool true o "is_active") as [i|] eqn:I; [|discriminate].
  simpl. intros [= <-]. simpl. unfold defaulted in *.
  repeat split; intros E; rewrite E in *; simpl in *; congruence.
Qed.

(** X25: a field the schema does not declare changes nothing to what a body is
    validated to. *)
Theorem unknown_fields_are_ignored k j o :
  (k ∉ ["name"; "email"; "role"; "bio"; "skills"; "avatar_url"; "is_active"] ->
   validate_User (JObj (<[k := j]> o)) = validate_User (JObj o)) /\
  (k ∉ ["title"; "description"; "category"; "price"; "creator_id"; "creator_name"] ->
   validate_Gig (JObj (<[k := j]> o)) = validate_Gig (JObj o)) /\
  (k ∉ ["gig_id"; "client_id"; "message"; "offered_price"; "status"] ->
   validate_Proposal (JObj (<[k := j]> o)) = validate_Proposal (JObj o)).
Proof.
  repeat split; intros N; rewrite !not_elem_of_cons in N;
    unfold validate_User, validate_Gig, validate_Proposal, required, defaulted;
    rewrite !lookup_insert_ne by tauto; reflexivity.
Qed.


(** ** The diagnostic route *)





(** X27: the diagnostic never leaves [database] at its first value nor at
    [Connected], and it reports collections only with [Connected & Working]. *)
Theorem test_database_verdicts environ db :
  exists verdict,
    test_database environ db !! "database" = Some (VStr verdict) /\
    verdict <> "❌ Not Available" /\ verdict <> "✅ Connected" /\
    (test_database environ db !! "collections" <> Some (VList []) ->
     verdict = "✅ Connected & Working" /\
     exists names, db = Some (Names names) /\
       test_database environ db !! "collections" = Some (VList names)).
Proof.
  destruct db as [[names | message]|]; eexists; (split; [reflexivity|]);
    (split; [discriminate|]); (split; [discriminate|]).
  - intros _. split; [reflexivity|]. exists names. split; reflexivity.
  - intros N. now destruct N.
  - intros N. now destruct N.
Qed.

(** X28: a variable set to the empty string is reported as one that is not set. *)
Theorem test_database_empty_variable environ db name :
  name = "DATABASE_URL" \/ name = "DATABASE_NAME" ->
  test_database (<[name := ""]> environ) db = test_database (delete name environ) db.
Proof.
  intros [-> | ->]; unfold test_database, set_or_not;
    rewrite ?lookup_insert_eq, ?lookup_delete_eq;
    rewrite ?lookup_insert_ne, ?lookup_delete_ne by discriminate; reflexivity.
Qed.

End Facts.

(* ===================================================================== *)
(** * The statements at work on the sample store *)

Section Examples.
Import Sample.
#[local] Existing Instances carriers libraries.

(** The engine on a few patterns, and the store on a pattern it refuses. *)

Example compile_dot :
  Regex.compile "a.c" =
  Regex.Compiled (Regex.Cat (Regex.Chr "a") (Regex.Cat Regex.Any (Regex.Cat (Regex.Chr "c") Regex.Eps))).
Proof. reflexivity. Qed.

Example compile_escaped_dot : Regex.compile "a\.c" = Regex.Compiled (Regex.literal "a.c").
Proof. reflexivity. Qed.

Example compile_open_group : Regex.compile "(" = Regex.Rejected.
Proof. reflexivity. Qed.

Example compile_dangling_star : Regex.compile "*a" = Regex.Rejected.
Proof. reflexivity. Qed.

Example compile_class : Regex.compile "[a-z]" = Regex.Outside.
Proof. reflexivity. Qed.

Example role_is_case_sensitive : matches_pattern "^(creator|client)$" "Creator" = false.
Proof. vm_compute. reflexivity. Qed.

Example list_gigs_open_group :
  (list_gigs None (Some "(") store).1 = Raise OperationFailure.
Proof. vm_compute. reflexivity. Qed.

Example list_gigs_case :
  (list_gigs (Some "design") (Some "LOG") store).1 = Return [Some (public logo)].
Proof. vm_compute. reflexivity. Qed.

Lemma create_gig_creator_not_found_witness :
  let gig := Build_Gig "Poster" "print" "design" 20%Z "000000000000000000000009" VNone in
  unresolved store "user" (creator_id gig) /\
  exists l,
    create_gig gig store = (Raise (HTTPException 404 "Creator not found"), logged store l) /\
    Forall (fun x => is_write x = false) l.
Proof.
  assert (unresolved store "user" "000000000000000000000009") as U.
  { right. exists 9%N. split; reflexivity. }
  split; [exact U|].
  exact (create_gig_creator_not_found
           (Build_Gig "Poster" "print" "design" 20%Z "000000000000000000000009" VNone) store U).
Defined.

Lemma create_proposal_gig_checked_first_witness :
  let p := Build_Proposal "no such gig" "no such client" "hi" None "pending" in
  unresolved store "gig" (gig_id p) /\
  unresolved store "user" (client_id p) /\
  exists l,
    create_proposal p store = (Raise (HTTPException 404 "Gig not found"), logged store l) /\
    only_reads_of "gig" l /\
    (forall o, FindOne "user" o ∉ l).
Proof.
  assert (unresolved store "gig" "no such gig") as U by (left; reflexivity).
  split; [exact U|]. split; [left; reflexivity|].
  exact (create_proposal_gig_checked_first
           (Build_Proposal "no such gig" "no such client" "hi" None "pending") store U).
Defined.

Lemma create_gig_creator_name_witness :
  let gig := Build_Gig "Poster" "print" "design" 20%Z "000000000000000000000001" VNone in
  resolves store "user" (creator_id gig) 1%N (as_dict ann) /\
  exists r e,
    (create_gig (with_creator_name gig (VStr "Bob")) store).1 = Return r /\
    collection (create_gig (with_creator_name gig (VStr "Bob")) store).2 "gig"
      = (collection store "gig" ++ [e])%list /\
    e.2 !! "creator_name" = Some (VStr "Ann").
Proof.
  assert (resolves store "user" "000000000000000000000001" 1%N (as_dict ann)) as R.
  { repeat split; reflexivity. }
  split; [exact R|].
  exact (create_gig_creator_name
           (Build_Gig "Poster" "print" "design" 20%Z "000000000000000000000001" VNone)
           (VStr "Bob") store 1%N (as_dict ann) (VStr "Ann") R eq_refl).
Defined.

Lemma serialize_doc_serialized_raises :
  no_native_id (Some shown) /\
  (forall k t, shown !! k <> Some (VDatetime t)) /\
  serialize_doc (Some shown) = Raise (KeyError "_id") /\
  serialize_doc (Some shown) <> Return (Some shown).
Proof.
  assert (serialize_doc (Some shown) = Raise (KeyError "_id")) as E
    by (vm_compute; reflexivity).
  split; [intros d [= <-]; reflexivity|]. split.
  - intros k t. unfold shown. rewrite !lookup_insert, lookup_empty.
    destruct (decide ("id" = k)); [discriminate|].
    destruct (decide ("name" = k)); discriminate.
  - split; [exact E | rewrite E; discriminate].
Qed.

Lemma serialize_doc_without_id_witness :
  no_native_id (Some shown) /\
  serialize_doc (Some shown) = Raise (KeyError "_id") /\
  serialize_doc (Some (∅ : doc)) = Return (Some ∅) /\
  serialize_doc None = Return None.
Proof.
  assert (no_native_id (Some shown)) as N by (intros d [= <-]; reflexivity).
  assert (no_native_id (Some (∅ : doc))) as N0 by (intros d [= <-]; reflexivity).
  assert (no_native_id (None : option doc)) as N1 by (intros d [=]).
  split; [exact N|]. split; [exact (serialize_doc_without_id (Some shown) N)|]. split.
  - exact (serialize_doc_without_id (Some ∅) N0).
  - exact (serialize_doc_without_id None N1).
Defined.

Lemma empty_name_is_accepted :
  nameless !! "name" = Some (JStr "") /\
  validate_User (JObj nameless) =
    Some (Build_User "" "ann@x.com" "creator" None (Some []) None true) /\
  (route (POST_users (JObj nameless)) empty_store).1 =
    Return (Created (id_response "000000000000000000000001")) /\
  collection (route (POST_users (JObj nameless)) empty_store).2 "user" =
    [(1%N, model_dump (Build_User "" "ann@x.com" "creator" None (Some []) None true))].
Proof. repeat split; reflexivity. Qed.

Lemma validate_User_accepts_witness :
  is_Some (validate_User (JObj nameless)) /\
  (forall u, validate_User (JObj nameless) = Some u -> name u = "").
Proof.
  destruct (validate_User_accepts nameless) as [A N]. split.
  - apply A. split; [now exists ""|]. split; [|split; [now left|]].
    + exists "ann@x.com". split; [reflexivity | now exists "ann@x.com"].
    + repeat split; eexists; reflexivity.
  - intros u U. specialize (N u U). now injection N.
Defined.

Lemma dot_matches_every_gig :
  (list_gigs None (Some ".") store).1 = Return [Some (public logo)] /\
  logo.2 !! "title" = Some (VStr "Logo") /\
  logo.2 !! "description" = Some (VStr "design") /\
  logo.2 !! "creator_name" = Some (VStr "Ann") /\
  ~ Regex.substring_ci "." "Logo" /\
  ~ Regex.substring_ci "." "design" /\
  ~ Regex.substring_ci "." "Ann" /\
  ~ gig_wanted None (Some ".") (as_dict logo).
Proof.
  assert (~ Regex.substring_ci "." "Logo") as T by (rewrite <- occurs_ci; discriminate).
  assert (~ Regex.substring_ci "." "design") as D by (rewrite <- occurs_ci; discriminate).
  assert (~ Regex.substring_ci "." "Ann") as A by (rewrite <- occurs_ci; discriminate).
  repeat split; try reflexivity; try assumption.
  intros [_ W]. destruct (W eq_refl) as [(s & E & S) | [(s & E & S) | (s & E & S)]];
    vm_compute in E; injection E as <-; tauto.
Qed.

Lemma list_gigs_plain_witness :
  Regex.plain "LOG" = true /\
  exists keep filt,
    (forall d, keep d = true <-> gig_wanted (Some "design") (Some "LOG") d) /\
    list_gigs (Some "design") (Some "LOG") store =
      (Return (listing store "gig" keep), logged store [Find "gig" filt 100]).
Proof.
  split; [reflexivity|].
  exact (list_gigs_plain (Some "design") (Some "LOG") store eq_refl).
Defined.

Lemma list_proposals_filters_witness :
  is_valid "not an id" = false /\
  status_code_of (list_proposals (Some "not an id") None store).1 = Some 200%Z /\
  list_proposals (Some "not an id") None store = list_proposals None None store.
Proof.
  destruct (list_proposals_filters (Some "not an id") None store) as (_ & S & D).
  split; [reflexivity|]. split; [exact S|]. exact (proj1 (D "not an id" eq_refl)).
Defined.

Lemma proposal_status_invariant_witness :
  proposals_ok store /\
  proposals_ok (route (POST_proposals (JObj (delete "status" hasty))) store).2 /\
  length (collection (route (POST_proposals (JObj (delete "status" hasty))) store).2 "proposal") = 1 /\
  route (POST_proposals (JObj hasty)) store = (Raise RequestValidationError, store).
Proof.
  destruct proposal_status_invariant as (I & R & _).
  assert (collection store "proposal" = []) as C by (vm_compute; reflexivity).
  assert (proposals_ok store) as S.
  { intros e. rewrite C. intros X. exfalso. revert X. apply not_elem_of_nil. }
  split; [exact S|]. split; [exact (I _ store S)|]. split.
  - vm_compute. reflexivity.
  - apply (R hasty (JStr "done") store).
    + vm_compute. reflexivity.
    + intros s X Q. unfold status_values in X. rewrite !elem_of_cons in X.
      destruct X as [-> | [-> | [-> | X]]]; [discriminate Q.. |].
      revert X. apply not_elem_of_nil.
Defined.

Lemma create_gig_frame_witness :
  let gig := Build_Gig "Poster" "print" "design" 20%Z "000000000000000000000001" (VStr "Bob") in
  (create_gig gig store).1 = Return (id_response "000000000000000000000003") /\
  exists e,
    collection (create_gig gig store).2 "gig" = (collection store "gig" ++ [e])%list /\
    e.2 !! "title" = Some (VStr "Poster") /\
    e.2 !! "description" = Some (VStr "print") /\
    e.2 !! "category" = Some (VStr "design") /\
    e.2 !! "price" = Some (VFloat 20%Z) /\
    e.2 !! "creator_id" = Some (VStr "000000000000000000000001") /\
    (forall k, k <> "creator_name" -> e.2 !! k = model_dump gig !! k).
Proof.
  split; [reflexivity|].
  exact (create_gig_frame
           (Build_Gig "Poster" "print" "design" 20%Z "000000000000000000000001" (VStr "Bob"))
           store (id_response "000000000000000000000003") eq_refl).
Defined.

Lemma logo_resolves : resolves store "gig" "000000000000000000000002" 2%N (as_dict logo).
Proof. repeat split; reflexivity. Qed.

Lemma ann_resolves : resolves store "user" "000000000000000000000001" 1%N (as_dict ann).
Proof. repeat split; reflexivity. Qed.

Lemma route_keeps_gigs_referring_witness :
  gigs_refer store /\
  length (collection (route (POST_gigs (JObj poster)) store).2 "gig") = 2 /\
  gigs_refer (route (POST_gigs (JObj poster)) store).2.
Proof.
  assert (gigs_refer store) as G.
  { intros e I. change (collection store "gig") with [logo] in I.
    apply list_elem_of_singleton in I as ->.
    exists "000000000000000000000001", 1%N, (as_dict ann).
    split; [reflexivity|]. split; [exact ann_resolves | reflexivity]. }
  split; [exact G|]. split; [vm_compute; reflexivity|].
  exact (route_keeps_gigs_referring (POST_gigs (JObj poster)) store G).
Defined.

Lemma route_keeps_proposals_referring_witness :
  proposals_refer store /\
  length (collection (route (POST_proposals (JObj (delete "status" hasty))) store).2 "proposal") = 1 /\
  proposals_refer (route (POST_proposals (JObj (delete "status" hasty))) store).2.
Proof.
  assert (proposals_refer store) as P.
  { intros e I. change (collection store "proposal") with (@nil (oid * doc)) in I.
    exfalso. revert I. apply not_elem_of_nil. }
  split; [exact P|]. split; [vm_compute; reflexivity|].
  exact (route_keeps_proposals_referring _ store P).
Defined.

Lemma listings_are_capped_witness :
  (route (GET_users None) store).1 = Return (Listing [Some (public ann)]) /\
  length [Some (public ann)] <= 100.
Proof.
  assert ((route (GET_users None) store).1 = Return (Listing [Some (public ann)])) as E
    by (vm_compute; reflexivity).
  split; [exact E|].
  exact (listings_are_capped (GET_users None) store _ E).
Defined.

Lemma listings_are_transport_safe_witness :
  (route (GET_gigs None None) store).1 = Return (Listing [Some (public logo)]) /\
  Forall (fun x => exists d, x = Some d /\ transport_safe d) [Some (public logo)].
Proof.
  assert ((route (GET_gigs None None) store).1 = Return (Listing [Some (public logo)])) as E
    by (vm_compute; reflexivity).
  split; [exact E|].
  exact (listings_are_transport_safe (GET_gigs None None) store _ E).
Defined.

Lemma listings_only_read_witness :
  db (route (GET_gigs (Some "design") (Some "(")) store).2 = db store /\
  issued (route (GET_gigs (Some "design") (Some "(")) store).2 = issued store /\
  exists name filt,
    log (route (GET_gigs (Some "design") (Some "(")) store).2
      = (log store ++ [Find name filt 100])%list.
Proof. exact (listings_only_read (GET_gigs (Some "design") (Some "(")) store eq_refl). Defined.

Lemma stamped_id : stamped !! "_id" = Some (VObjectId 7%N).
Proof. vm_compute. reflexivity. Qed.

Lemma stamped_serialized :
  serialize_doc (Some stamped) =
  Return (Some (iso <$> <["id" := VStr (str (VObjectId 7%N))]> (delete "_id" stamped))).
Proof. vm_compute. reflexivity. Qed.

Lemma serialize_doc_renames_id_witness :
  stamped !! "id" = Some (VStr "mine") /\
  exists r,
    serialize_doc (Some stamped) = Return (Some r) /\
    r !! "_id" = None /\
    r !! "id" = Some (VStr (str (VObjectId 7%N))) /\
    (forall k, k <> "_id" -> k <> "id" -> r !! k = iso <$> stamped !! k).
Proof.
  split; [vm_compute; reflexivity|].
  exact (serialize_doc_renames_id stamped _ stamped_id).
Defined.

Lemma serialize_doc_converts_time_witness :
  stamped !! "created_at" = Some (VDatetime "2024-05-01T10:00:00") /\
  exists r,
    serialize_doc (Some stamped) = Return (Some r) /\
    r !! "created_at" = Some (VStr (isoformat "2024-05-01T10:00:00")) /\
    (forall k t, r !! k <> Some (VDatetime t)).
Proof.
  assert (stamped !! "created_at" = Some (VDatetime "2024-05-01T10:00:00")) as C
    by (vm_compute; reflexivity).
  destruct (serialize_doc_converts_time stamped _ _ stamped_id stamped_serialized) as (N & T & _).
  split; [exact C|]. eexists. split; [exact stamped_serialized|]. split; [|exact N].
  apply (T "created_at" "2024-05-01T10:00:00"); [discriminate | discriminate | exact C].
Defined.

Lemma serialize_doc_twice_raises_witness :
  exists r,
    serialize_doc (Some stamped) = Return r /\
    serialize_doc r = Raise (KeyError "_id").
Proof.
  eexists. split; [exact stamped_serialized|].
  exact (serialize_doc_twice_raises stamped _ _ stamped_id stamped_serialized).
Defined.

Lemma create_proposal_client_not_found_witness :
  let p := Build_Proposal "000000000000000000000002" "nobody" "hi" None "pending" in
  resolves store "gig" (gig_id p) 2%N (as_dict logo) /\
  unresolved store "user" (client_id p) /\
  exists l,
    create_proposal p store =
      (Raise (HTTPException 404 "Client not found"), logged store (FindOne "gig" 2%N :: l)) /\
    only_reads_of "user" l.
Proof.
  assert (unresolved store "user" "nobody") as U by (left; reflexivity).
  split; [exact logo_resolves|]. split; [exact U|].
  exact (create_proposal_client_not_found
           (Build_Proposal "000000000000000000000002" "nobody" "hi" None "pending")
           store 2%N (as_dict logo) logo_resolves U).
Defined.

Lemma create_proposal_stores_input_witness :
  exists e,
    create_proposal offer store =
      (Return (id_response (str (VObjectId e.1))),
       inserted store [FindOne "gig" 2%N; FindOne "user" 1%N] "proposal" e.2) /\
    collection (create_proposal offer store).2 "proposal" = (collection store "proposal" ++ [e])%list /\
    collection (create_proposal offer store).2 "gig" = collection store "gig" /\
    collection (create_proposal offer store).2 "user" = collection store "user" /\
    e.2 !! "gig_id" = Some (VStr (gig_id offer)) /\
    e.2 !! "client_id" = Some (VStr (client_id offer)) /\
    e.2 !! "message" = Some (VStr (message offer)) /\
    e.2 !! "offered_price" = Some (of_option VFloat (offered_price offer)) /\
    e.2 !! "status" = Some (VStr (status offer)).
Proof.
  exact (create_proposal_stores_input offer store 2%N (as_dict logo) 1%N (as_dict ann)
           logo_resolves ann_resolves).
Defined.

Lemma nobody_resolves :
  resolves anonymous "user" "000000000000000000000001" 1%N
    (as_dict (1%N, <["email" := VStr "nobody@x.com"]> ∅)).
Proof. repeat split; vm_compute; reflexivity. Qed.

Lemma create_gig_nameless_creator_witness :
  let gig := Build_Gig "Poster" "print" "design" 20%Z "000000000000000000000001" (VStr "Bob") in
  exists r e,
    (create_gig gig anonymous).1 = Return r /\
    collection (create_gig gig anonymous).2 "gig" = (collection anonymous "gig" ++ [e])%list /\
    e.2 !! "creator_name" = Some VNone.
Proof.
  assert (as_dict ((1%N : oid), (<["email" := VStr "nobody@x.com"]> ∅ : doc)) !! "name" = None) as N
    by (vm_compute; reflexivity).
  exact (create_gig_nameless_creator
           (Build_Gig "Poster" "print" "design" 20%Z "000000000000000000000001" (VStr "Bob"))
           anonymous 1%N _ nobody_resolves N).
Defined.




Lemma created_user_can_offer_gig_witness :
  by_id store "user" (generate (issued store)) = None /\
  ObjectId (str (VObjectId (generate (issued store)))) = Some (generate (issued store)) /\
  exists r e,
    (create_gig banner (create_user bob store).2).1 = Return r /\
    collection (create_gig banner (create_user bob store).2).2 "gig"
      = (collection store "gig" ++ [e])%list /\
    e.2 !! "creator_name" = Some (VStr (name bob)).
Proof.
  assert (by_id store "user" (generate (issued store)) = None) as F by (vm_compute; reflexivity).
  assert (str (VObjectId (generate (issued store))) <> "") as N by (vm_compute; discriminate).
  assert (ObjectId (str (VObjectId (generate (issued store)))) = Some (generate (issued store))) as P
    by (vm_compute; reflexivity).
  assert (creator_id banner = str (VObjectId (generate (issued store)))) as C
    by (vm_compute; reflexivity).
  split; [exact F|]. split; [exact P|].
  exact (created_user_can_offer_gig bob banner store F N P C).
Defined.

Lemma created_gig_can_be_proposed_on_witness :
  let gig := Build_Gig "Poster" "print" "design" 20%Z "000000000000000000000001" VNone in
  let p := Build_Proposal "000000000000000000000003" "000000000000000000000001" "hi" None "pending" in
  exists r,
    (create_gig gig store).1 = Return (id_response (gig_id p)) /\
    (create_proposal p (create_gig gig store).2).1 = Return r /\
    collection (create_proposal p (create_gig gig store).2).2 "proposal"
      = (collection store "proposal" ++ [(generate (S (issued store)), model_dump p)])%list.
Proof.
  assert (str (VObjectId (generate (issued store))) <> "") as N by (vm_compute; discriminate).
  assert (ObjectId (str (VObjectId (generate (issued store)))) = Some (generate (issued store))) as P
    by (vm_compute; reflexivity).
  exact (created_gig_can_be_proposed_on
           (Build_Gig "Poster" "print" "design" 20%Z "000000000000000000000001" VNone)
           (Build_Proposal "000000000000000000000003" "000000000000000000000001" "hi" None "pending")
           store 1%N (as_dict ann) 1%N (as_dict ann) ann_resolves ann_resolves N P eq_refl).
Defined.


Lemma list_gigs_ignores_case_of_q_witness :
  (list_gigs None (Some "logo") store).1 = (list_gigs None (Some "LOGO") store).1 /\
  (list_gigs None (Some "LOGO") store).1 = Return [Some (public logo)].
Proof.
  split; [|vm_compute; reflexivity].
  exact (list_gigs_ignores_case_of_q None "logo" "LOGO" store eq_refl eq_refl eq_refl).
Defined.

Lemma list_gigs_refused_pattern_witness :
  Regex.compile "*a" = Regex.Rejected /\
  exists filt,
    list_gigs None (Some "*a") store = (Raise OperationFailure, logged store [Find "gig" filt 100]) /\
    status_code_of (list_gigs None (Some "*a") store).1 = Some 500%Z.
Proof.
  split; [reflexivity|]. exact (list_gigs_refused_pattern None "*a" store eq_refl).
Defined.

Lemma validate_User_defaults_witness :
  validate_User (JObj nameless) =
    Some (Build_User "" "ann@x.com" "creator" None (Some []) None true) /\
  nameless !! "skills" = None /\ nameless !! "is_active" = None.
Proof.
  assert (validate_User (JObj nameless) =
    Some (Build_User "" "ann@x.com" "creator" None (Some []) None true)) as V
    by (vm_compute; reflexivity).
  destruct (validate_User_defaults nameless _ V) as (_ & _ & _ & _ & _).
  split; [exact V|]. split; vm_compute; reflexivity.
Defined.

Lemma test_database_empty_variable_witness :
  test_database (<["DATABASE_URL" := ""]> ∅) None !! "database_url" = Some (VStr "❌ Not Set") /\
  test_database (<["DATABASE_URL" := ""]> ∅) None = test_database (delete "DATABASE_URL" ∅) None.
Proof.
  split; [vm_compute; reflexivity|].
  exact (test_database_empty_variable ∅ None "DATABASE_URL" (or_introl eq_refl)).
Defined.

End Examples.
